(** * dushu: document ingestion and pagination

    A shallow embedding of the text pipeline of the reader application:
    - [views/Reader.tsx], [processContent]: pagination and heading index;
    - [services/pdf.ts], [extractTextFromPdf]: the reconstruction of the
      text of a page from its positioned runs;
    - [services/ebookParser], [extractTextFromEpub], [extractTextFromMobi];
    - [views/Library], [readTextFile] and [processFile]: encoding
      resolution, size limit, dispatch and the empty-content test;
    - [views/Reader.tsx], navigation and night mode; [services/pdf.ts],
      the whole document; [services/gemini.ts], the prompts and the
      metadata; [App.tsx], the handlers of the application state;
      [views/Converter.tsx], the run of a conversion.

    The definitions come first, module by module, then the notions used
    in the statements and the examples, then the facts.

    JavaScript strings are sequences of UTF-16 code units; a code unit is
    modelled as a [Z] and a string as a [list Z], so that [length] is the
    JavaScript [length] and indexing is by code unit, as in the source. *)

From Stdlib Require Import ZArith QArith Lia Ascii String.
From stdpp Require Import base list strings gmap.

Local Open Scope Z_scope.

(** ** JavaScript strings *)

Abbreviation jsstring := (list Z).

(** ASCII literals: every character of a Rocq string below 128 is its own
    UTF-16 code unit. *)
Definition js (s : string) : jsstring :=
  List.map (fun a => Z.of_nat (nat_of_ascii a)) (list_ascii_of_string s).

Definition NL : Z := 10.     (* "\n" *)
Definition SPACE : Z := 32.  (* " " *)

(** [in_range lo hi c]: lo <= c <= hi. *)
Definition in_range (lo hi c : Z) : bool := (lo <=? c) && (c <=? hi).

(** White space and line terminators of ECMAScript: the characters removed
    by [String.prototype.trim] and matched by the regular expression
    escape [\s]. *)
Definition is_ws (c : Z) : bool :=
  in_range 9 13 c || (c =? 32) || (c =? 160) || (c =? 5760)
  || in_range 8192 8202 c || (c =? 8232) || (c =? 8233) || (c =? 8239)
  || (c =? 8287) || (c =? 12288) || (c =? 65279).

Fixpoint drop_while (p : Z -> bool) (s : jsstring) : jsstring :=
  match s with
  | [] => []
  | c :: r => if p c then drop_while p r else s
  end.

Fixpoint take_while (p : Z -> bool) (s : jsstring) : jsstring :=
  match s with
  | [] => []
  | c :: r => if p c then c :: take_while p r else []
  end.

(** [s.trim()] *)
Definition trim (s : jsstring) : jsstring :=
  rev (drop_while is_ws (rev (drop_while is_ws s))).

(** Truthiness of a string: non-empty. *)
Definition truthy (s : jsstring) : bool :=
  match s with [] => false | _ => true end.

(** [s.split('\n')]: never empty, [''.split('\n')] is [['']]. *)
Fixpoint split_lines (s : jsstring) : list jsstring :=
  match s with
  | [] => [[]]
  | c :: r =>
      if c =? NL then [] :: split_lines r
      else match split_lines r with
           | l :: ls => (c :: l) :: ls
           | [] => [[c]]
           end
  end.

(** [s.startsWith(p)] *)
Fixpoint startsWith (p s : jsstring) : bool :=
  match p, s with
  | [], _ => true
  | _ :: _, [] => false
  | a :: p', b :: s' => (a =? b) && startsWith p' s'
  end.

(** ** Files, results and the console *)

(** A [File] of the browser: its name, MIME type, size in bytes and the
    bytes that [arrayBuffer()] yields. *)
Record File := mkFile {
  file_name : jsstring;
  file_type : jsstring;
  file_size : Z;
  file_bytes : list Byte.byte
}.

(** The outcome of a function that returns a value or throws. *)
Inductive result (E A : Type) : Type :=
| Ok (a : A)
| Err (e : E).
Arguments Ok {E A} a.
Arguments Err {E A} e.

(** ** Text decoding *)

(** [TextDecoder]: the permissive UTF-8 decoder
    ([new TextDecoder('utf-8', { fatal: false })]), which replaces what it
    cannot decode by U+FFFD, and the GB18030 decoder, [None] when
    [new TextDecoder('gb18030')] or its [decode] throws. *)
Class TextDecoder := {
  decode_utf8 : list Byte.byte -> jsstring;
  decode_gb18030 : list Byte.byte -> option jsstring
}.

(** ** Paginator and heading index ([views/Reader.tsx]) *)

Module Reader.

Record TocItem := mkToc { title : jsstring; pageIndex : nat; level : nat }.

Definition CHARS_PER_PAGE : nat := 1200.

(** "暂无内容" *)
Definition placeholder : jsstring := [26242; 26080; 20869; 23481].

Definition HASH : Z := 35.
Definition is_hash (c : Z) : bool := c =? HASH.
Definition is_digit (c : Z) : bool := in_range 48 57 c.

(** The class [[0-9零一二三四五六七八九十百千]]. *)
Definition is_numeral (c : Z) : bool :=
  is_digit c ||
  existsb (Z.eqb c)
    [38646; 19968; 20108; 19977; 22235; 20116; 20845; 19971; 20843; 20061;
     21313; 30334; 21315].

(** The class [[章回节卷]]. *)
Definition is_unit (c : Z) : bool :=
  existsb (Z.eqb c) [31456; 22238; 33410; 21367].

(** First alternative, [#{1,6}\s+] anchored at the start: the run of
    leading hashes has between one and six characters and is followed by a
    white-space character (a hash is not white space, so no shorter run
    can be followed by one). *)
Definition match_atx (s : jsstring) : bool :=
  let n := length (take_while is_hash s) in
  (1 <=? n)%nat && (n <=? 6)%nat &&
  match drop_while is_hash s with
  | c :: _ => is_ws c
  | [] => false
  end.

(** Second alternative, [第[0-9零一...千]+[章回节卷]]: the numeral class and
    the unit class are disjoint, so the greedy run of numerals is the only
    candidate. *)
Definition match_cjk_chapter (s : jsstring) : bool :=
  match s with
  | c :: r =>
      (c =? 31532) &&
      truthy (take_while is_numeral r) &&
      match drop_while is_numeral r with
      | u :: _ => is_unit u
      | [] => false
      end
  | [] => false
  end.

(** A letter of the pattern under the [i] flag: the pattern letter, given
    in upper case, matches itself and its lower-case form. *)
Definition ci (upper c : Z) : bool := (c =? upper) || (c =? upper + 32).

(** Third alternative, [Chapter\s+\d+] under the [i] flag. *)
Definition match_chapter (s : jsstring) : bool :=
  match s with
  | c :: h :: a :: p :: t :: e :: r :: rest =>
      ci 67 c && ci 72 h && ci 65 a && ci 80 p && ci 84 t && ci 69 e &&
      ci 82 r &&
      truthy (take_while is_ws rest) &&
      match drop_while is_ws rest with
      | d :: _ => is_digit d
      | [] => false
      end
  | _ => false
  end.

(** [headerRegex.test(s)] for
    [/^(#{1,6}\s+|第[0-9零一二三四五六七八九十百千]+[章回节卷]|Chapter\s+\d+)/i]. *)
Definition headerRegex_test (s : jsstring) : bool :=
  match_atx s || match_cjk_chapter s || match_chapter s.

(** [line.startsWith('#') ? line.match(/^#+/)?.[0].length || 1 : 1] *)
Definition heading_level (line : jsstring) : nat :=
  if startsWith [HASH] line then
    match length (take_while is_hash line) with
    | O => 1%nat
    | n => n
    end
  else 1%nat.

(** [line.replace(/^[#\s]+/, '').trim()] *)
Definition heading_title (line : jsstring) : jsstring :=
  trim (drop_while (fun c => is_hash c || is_ws c) line).

(** [title.length > 20 ? title.substring(0, 20) + '...' : title] *)
Definition display_title (t : jsstring) : jsstring :=
  if (20 <? length t)%nat then take 20 t ++ js "..." else t.

(** The variables of the loop of [processContent]. *)
Record state := mkState {
  newPages : list jsstring;
  currentChunk : jsstring;
  currentLength : nat;
  tempToc : list TocItem;
  curIndex : nat            (* the loop variable [pageIndex] *)
}.

Definition init : state := mkState [] [] 0 [] 0.

(** [currentLength > budget * 0.8].  For integers the comparison with the
    double [budget * 0.8] is the comparison [5 * currentLength > 4 * budget];
    [1200 * 0.8] is the double 960. *)
Definition near_boundary (budget len : nat) : bool :=
  (4 * budget <? 5 * len)%nat.

(** The entry pushed on [tempToc] for a heading line. *)
Definition toc_entry (budget : nat) (st : state) (line : jsstring) : TocItem :=
  {| title := display_title (heading_title line);
     pageIndex := if near_boundary budget (currentLength st)
                  then S (curIndex st) else curIndex st;
     level := heading_level line |}.

(** One iteration of the [for] loop over the lines. *)
Definition step (budget : nat) (st : state) (line : jsstring) : state :=
  let toc := if headerRegex_test (trim line)
             then tempToc st ++ [toc_entry budget st line]
             else tempToc st in
  let chunk := currentChunk st ++ line ++ [NL] in
  let len := (currentLength st + length line)%nat in
  if (budget <? len)%nat
  then mkState (newPages st ++ [chunk]) [] 0 toc (S (curIndex st))
  else mkState (newPages st) chunk len toc (curIndex st).

Definition run (budget : nat) (lines : list jsstring) (st : state) : state :=
  fold_left (step budget) lines st.

(** What follows the loop: the last chunk is kept when [currentChunk.trim()]
    is non-empty, and the placeholder page stands in for an empty result. *)
Definition finish (st : state) : list jsstring * list TocItem :=
  let pages := if truthy (trim (currentChunk st))
               then newPages st ++ [currentChunk st]
               else newPages st in
  let pages := if (length pages =? 0)%nat then pages ++ [placeholder]
               else pages in
  (pages, tempToc st).

(** [processContent], with the page character budget as a parameter; the
    source fixes it to [CHARS_PER_PAGE]. *)
Definition paginate (budget : nat) (content : jsstring)
  : list jsstring * list TocItem :=
  finish (run budget (split_lines content) init).

Definition processContent (content : jsstring) :=
  paginate CHARS_PER_PAGE content.

End Reader.

(** ** PDF layout extractor ([services/pdf.ts]) *)

Module Pdf.

Local Open Scope Q_scope.

(** [a < b] on numbers, as a boolean. *)
Definition Qltb (a b : Q) : bool := negb (Qle_bool b a).

(** The transform of a text item:
    [[scaleX, skewY, skewX, scaleY, transX, transY]]. *)
Record Transform := mkTransform {
  scaleX : Q; skewY : Q; skewX : Q; scaleY : Q; transX : Q; transY : Q
}.

Record TextItem := mkItem { str : jsstring; transform : option Transform }.

(** The variables of the loop over the items of one page. *)
Record state := mkState { pageText : jsstring; lastY : Q }.

Definition NO_LAST_Y : Q := -9999.

Definition init : state := mkState [] NO_LAST_Y.

(** [/[　-〿一-龥＀-￯]/.test(c)] *)
Definition isCJK (c : Z) : bool :=
  in_range 12288 12351 c || in_range 19968 40869 c || in_range 65280 65519 c.

(** [item.transform ? item.transform[5] : 0] *)
Definition currentY_of (item : TextItem) : Q :=
  match transform item with
  | Some t => transY t
  | None => 0
  end.

(** The same-line branch: a space unless a boundary character is CJK or
    the text already ends with a space or a line break. *)
Definition inline_spacing (pageText str : jsstring) : jsstring :=
  match last pageText with
  | None => []
  | Some lastChar =>
      let currCJK := match str with c :: _ => isCJK c | [] => false end in
      if negb (isCJK lastChar) && negb currCJK
         && negb (lastChar =? SPACE)%Z && negb (lastChar =? NL)%Z
      then [SPACE] else []
  end.

(** What is appended to [pageText] before the run, given [yDiff]. *)
Definition separator (yDiff : Q) (pageText str : jsstring) : jsstring :=
  if Qltb 8 yDiff then
    if Qltb 24 yDiff then [NL; NL] else [NL]
  else if Qltb yDiff (-8) then [SPACE]
  else inline_spacing pageText str.

(** [!str || str.trim().length === 0] *)
Definition skipped (s : jsstring) : bool :=
  negb (truthy s) || (length (trim s) =? 0)%nat.

(** One iteration of the loop over the items. *)
Definition step (st : state) (item : TextItem) : state :=
  if skipped (str item) then st
  else
    let currentY := currentY_of item in
    let sep := if negb (Qeq_bool (lastY st) NO_LAST_Y)
               then separator (lastY st - currentY) (pageText st) (str item)
               else [] in
    mkState (pageText st ++ sep ++ str item) currentY.

(** The text reconstructed for one page. *)
Definition extractPageText (items : list TextItem) : jsstring :=
  pageText (fold_left step items init).

Definition at_y (s : jsstring) (y : Q) : TextItem :=
  mkItem s (Some (mkTransform 1 0 0 1 0 y)).

End Pdf.

(** ** EPUB spine extractor ([services/ebookParser]) *)

Module Epub.

(** An [item] element of the manifest with its [id] and [href]
    attributes, [None] where [getAttribute] yields [null]. *)
Record Item := mkItem { item_id : option jsstring; item_href : option jsstring }.

(** The package document: the first [manifest] element with its [item]
    descendants and the first [spine] element with the [idref] attribute
    of each [itemref] descendant, in document order; [None] where
    [getElementsByTagName(..)[0]] is [undefined]. *)
Record Opf := mkOpf {
  manifest : option (list Item);
  spine : option (list (option jsstring))
}.

(** What the extractor uses of the browser and of JSZip. *)
Class Platform := {
  (** [JSZip.loadAsync(file)]: the entries of the archive by name, each
      read [async("string")]; [None] when loading is rejected. *)
  loadAsync : File -> option (gmap (list Z) (list Z));
  (** [parseFromString(xml, "application/xml").querySelector("rootfile")
      ?.getAttribute("full-path")] *)
  rootfile_full_path : jsstring -> option jsstring;
  (** [parseFromString(xml, "application/xml")], as far as it is read. *)
  parse_opf : jsstring -> Opf;
  (** [stripHtml]: the text content of the body of the parsed document. *)
  stripHtml : jsstring -> jsstring;
  (** [decodeURIComponent], [None] when it throws [URIError]. *)
  decodeURIComponent : jsstring -> option jsstring
}.

(** What is thrown inside the [try] block. *)
Inductive exn :=
| LoadFailed           (* [JSZip.loadAsync] rejected *)
| MissingContainer     (* Error("Invalid EPUB: Missing container.xml") *)
| MissingOpfPath       (* Error("Invalid EPUB: Cannot find OPF path") *)
| MissingOpf           (* Error("Invalid EPUB: Missing OPF file") *)
| UndefinedSection     (* TypeError: [manifest] or [spine] is undefined *)
| MalformedURI         (* URIError of [decodeURIComponent] *)
| EmptyContent.        (* Error("EPUB content appears empty") *)

(** What the function throws: [Error("EPUB 解析失败: " + e.message)]. *)
Inductive error := EpubFailed (cause : exn).

(** The console: [console.error("EPUB parsing failed:", e)] is the only
    output of the function. *)
Inductive console := ConsoleError (cause : exn).

Definition SLASH : Z := 47.

(** [opfPath.substring(0, opfPath.lastIndexOf('/') + 1)] *)
Definition opfDir_of (opfPath : jsstring) : jsstring :=
  rev (drop_while (fun c => negb (c =? SLASH)%Z) (rev opfPath)).

(** A string that is present and not empty. *)
Definition present (s : option jsstring) : option jsstring :=
  match s with
  | Some (c :: r) => Some (c :: r)
  | _ => None
  end.

Section Extract.
Context `{Platform}.

(** [Array.from(manifest.getElementsByTagName("item")).find(
      (i) => i.getAttribute("id") === idref)] *)
Definition find_item (items : list Item) (idref : jsstring) : option Item :=
  List.find (fun i => bool_decide (item_id i = Some idref)) items.

(** The body of the loop over the [itemref]s: the text accumulated so far
    goes in, and the next one, or what is thrown, comes out. *)
Definition spine_step (zip : gmap (list Z) (list Z))
  (manifest : option (list Item)) (opfDir : jsstring)
  (fullText : jsstring) (idref : option jsstring) : result exn jsstring :=
  match present idref with
  | None => Ok fullText                                   (* [continue] *)
  | Some idref =>
      match manifest with
      | None => Err UndefinedSection
      | Some items =>
          match present (find_item items idref ≫= item_href) with
          | None => Ok fullText
          | Some href =>
              match decodeURIComponent (opfDir ++ href) with
              | None => Err MalformedURI
              | Some fileKey =>
                  match present (zip !! fileKey) with
                  | None => Ok fullText
                  | Some fileContent =>
                      Ok (fullText ++ stripHtml fileContent ++ [NL; NL])
                  end
              end
          end
      end
  end.

(** The [for ... of] loop: it stops at the first iteration that throws. *)
Fixpoint spine_loop (zip : gmap (list Z) (list Z))
  (manifest : option (list Item)) (opfDir : jsstring)
  (itemrefs : list (option jsstring)) (fullText : jsstring)
  : result exn jsstring :=
  match itemrefs with
  | [] => Ok fullText
  | idref :: rest =>
      match spine_step zip manifest opfDir fullText idref with
      | Ok fullText' => spine_loop zip manifest opfDir rest fullText'
      | Err e => Err e
      end
  end.

(** The [try] block. *)
Definition extract_body (file : File) : result exn jsstring :=
  match loadAsync file with
  | None => Err LoadFailed
  | Some zip =>
      match present (zip !! js "META-INF/container.xml") with
      | None => Err MissingContainer
      | Some container =>
          match present (rootfile_full_path container) with
          | None => Err MissingOpfPath
          | Some opfPath =>
              match present (zip !! opfPath) with
              | None => Err MissingOpf
              | Some opfContent =>
                  let opfDoc := parse_opf opfContent in
                  let opfDir := opfDir_of opfPath in
                  match spine opfDoc with
                  | None => Err UndefinedSection
                  | Some itemrefs =>
                      match spine_loop zip (manifest opfDoc) opfDir
                              itemrefs [] with
                      | Err e => Err e
                      | Ok fullText =>
                          if truthy (trim fullText) then Ok fullText
                          else Err EmptyContent
                      end
                  end
              end
          end
      end
  end.

(** [extractTextFromEpub]: the text or the error thrown, and what was
    written to the console. *)
Definition extractTextFromEpub (file : File)
  : result error jsstring * list console :=
  match extract_body file with
  | Ok fullText => (Ok fullText, [])
  | Err e => (Err (EpubFailed e), [ConsoleError e])
  end.

End Extract.
End Epub.

(** ** MOBI text extractor ([services/ebookParser]) *)

Module Mobi.

(** Thrown inside the [try] block:
    Error("Cannot extract text from this MOBI file."). *)
Inductive exn := CannotExtract.

(** What the function throws:
    Error("MOBI 解析失败，请尝试转换为 EPUB 格式上传。"). *)
Inductive error := MobiFailed.

(** [console.error("MOBI parsing failed", e)] *)
Inductive console := ConsoleError (cause : exn).

(** "【注意：MOBI 格式使用纯文本提取模式，可能会丢失部分排版格式。
    建议使用 EPUB 格式获得最佳体验。】\n\n" *)
Definition notice : jsstring :=
  [12304; 27880; 24847; 65306; 77; 79; 66; 73; 32; 26684; 24335; 20351;
   29992; 32431; 25991; 26412; 25552; 21462; 27169; 24335; 65292; 21487;
   33021; 20250; 20002; 22833; 37096; 20998; 25490; 29256; 26684; 24335;
   12290; 24314; 35758; 20351; 29992; 32; 69; 80; 85; 66; 32; 26684; 24335;
   33719; 24471; 26368; 20339; 20307; 39564; 12290; 12305; 10; 10].

(** [\w] *)
Definition is_word (c : Z) : bool :=
  in_range 48 57 c || in_range 65 90 c || in_range 97 122 c || (c =? 95)%Z.

(** The character class of the pattern: [\w], [\s], the ranges
    U+4E00-U+9FA5, U+3000-U+303F and U+FF00-U+FFEF, and the characters
    comma, full stop, question mark, exclamation mark, colon, semicolon,
    double quote, single quote, parentheses, angle brackets, square
    brackets, line feed, carriage return and hyphen. *)
Definition is_readable (c : Z) : bool :=
  is_word c || is_ws c
  || in_range 19968 40869 c || in_range 12288 12351 c
  || in_range 65280 65519 c
  || existsb (Z.eqb c)
       [44; 46; 63; 33; 58; 59; 34; 39; 40; 41; 60; 62; 91; 93; 10; 13; 45].

(** A run is a match when it has at least ten characters. *)
Definition emit (run : jsstring) : list jsstring :=
  if (10 <=? length run)%nat then [run] else [].

(** [rawText.match(/[...]{10,}/g)]: the maximal runs of readable
    characters of length at least ten, from left to right ([run] is the
    run being read).  [null] is the empty list. *)
Fixpoint matches_from (run : jsstring) (s : jsstring) : list jsstring :=
  match s with
  | [] => emit run
  | c :: r =>
      if is_readable c then matches_from (run ++ [c]) r
      else emit run ++ matches_from [] r
  end.

Definition matches (rawText : jsstring) : list jsstring :=
  matches_from [] rawText.

(** [rawText.replace(/[^\x20-\x7E\n\r\t]/g, '')] *)
Definition ascii_only (rawText : jsstring) : jsstring :=
  List.filter (fun c => in_range 32 126 c || (c =? 10)%Z || (c =? 13)%Z
                        || (c =? 9)%Z) rawText.

(** [matches.join('\n')] *)
Fixpoint join_nl (l : list jsstring) : jsstring :=
  match l with
  | [] => []
  | [x] => x
  | x :: r => x ++ [NL] ++ join_nl r
  end.

Definition LT : Z := 60.
Definition GT : Z := 62.

(** [s.replace(/<[^>]*>/g, '')]: from a [<], everything up to the next
    [>] is removed; a [<] with no [>] after it stays, and so does what
    follows it.  [in_tag] tells that a [<] was read and its [>] is yet to
    come. *)
Fixpoint strip_tags_from (in_tag : bool) (s : jsstring) : jsstring :=
  match s with
  | [] => []
  | c :: r =>
      if in_tag then
        if (c =? GT)%Z then strip_tags_from false r
        else strip_tags_from true r
      else if (c =? LT)%Z then
        if existsb (Z.eqb GT) r then strip_tags_from true r else c :: r
      else c :: strip_tags_from false r
  end.

Definition strip_tags (s : jsstring) : jsstring := strip_tags_from false s.

Section Extract.
Context `{TextDecoder}.

(** The [try] block. *)
Definition extract_body (file : File) : result exn jsstring :=
  let rawText := decode_utf8 (file_bytes file) in
  match matches rawText with
  | [] =>
      let asciiText := ascii_only rawText in
      if (100 <? length asciiText)%nat then Ok asciiText
      else Err CannotExtract
  | ms => Ok (notice ++ strip_tags (join_nl ms))
  end.

(** [extractTextFromMobi]: the text or the error thrown, and what was
    written to the console. *)
Definition extractTextFromMobi (file : File)
  : result error jsstring * list console :=
  match extract_body file with
  | Ok text => (Ok text, [])
  | Err e => (Err MobiFailed, [ConsoleError e])
  end.

End Extract.
End Mobi.

(** ** The library view ([views/Library]) *)

Module Library.

Definition MAX_FILE_SIZE : Z := 50 * 1024 * 1024.

Inductive format := txt | md | json | pdf | epub | mobi.

Record Book := mkBook {
  id : jsstring;
  title : jsstring;
  author : jsstring;
  description : jsstring;
  tags : list jsstring;
  content : jsstring;
  book_format : format;
  coverUrl : jsstring;
  addedAt : Z;
  progress : Z
}.

Record Metadata := mkMetadata {
  meta_title : jsstring;
  meta_author : jsstring;
  meta_tags : list jsstring;
  meta_description : jsstring
}.

(** What [processFile] throws or receives in its [catch]. *)
Inductive error {pdf_error : Type} :=
| PdfError (e : pdf_error)      (* thrown by [extractTextFromPdf] *)
| EpubError (e : Epub.error)    (* thrown by [extractTextFromEpub] *)
| MobiError (e : Mobi.error)    (* thrown by [extractTextFromMobi] *)
| EmptyContent.                 (* Error("文件内容为空或无法解析") *)
Arguments error : clear implicits.

(** The messages of [alert]. *)
Inductive alert {pdf_error : Type} :=
| FileTooLarge (size : Z)
    (* `文件太大 (${(size / 1024 / 1024).toFixed(2)}MB)。请上传小于 50MB 的文件。` *)
| UploadFailed (e : error pdf_error).
    (* `上传失败: ${error.message || "未知错误"}` *)
Arguments alert : clear implicits.

(** The lines of [readTextFile] on the console. *)
Inductive decode_log :=
| AttemptGb18030
    (* log "Detected potential encoding issue, attempting GB18030/GBK decode..." *)
| Gb18030Failed.
    (* warn "GBK decoding failed, falling back to UTF-8" *)

(** What [processFile] does, in order. *)
Inductive effect {pdf_error : Type} :=
| Alert (a : alert pdf_error)
| SetIsUploading (b : bool)
| ExtractPdf                      (* the call of [extractTextFromPdf] *)
| ExtractEpub (out : list Epub.console)
                                  (* the call of [extractTextFromEpub] *)
| ExtractMobi (out : list Mobi.console)
                                  (* the call of [extractTextFromMobi] *)
| ReadText (out : list decode_log)  (* the call of [readTextFile] *)
| UploadFailedLog (e : error pdf_error)
                                  (* console.error("Upload failed", error) *)
| CoverSkippedLog                 (* console.warn("Cover generation skipped", e) *)
| OnAddBook (b : Book).
Arguments effect : clear implicits.

(** ASCII [toLowerCase]; no character outside ASCII has a letter of the
    suffixes tested below as its lower case at the end of the string. *)
Definition toLowerCase (s : jsstring) : jsstring :=
  List.map (fun c => if in_range 65 90 c then (c + 32)%Z else c) s.

(** [s.endsWith(suffix)] *)
Definition endsWith (suffix s : jsstring) : bool :=
  startsWith (rev suffix) (rev s).

(** [s.substring(0, n)] *)
Definition substring0 (n : nat) (s : jsstring) : jsstring := take n s.

(** The number of U+FFFD: [(utf8Text.match(/\uFFFD/g) || []).length]. *)
Definition replacementCount (utf8Text : jsstring) : nat :=
  length (List.filter (fun c => (c =? 65533)%Z) utf8Text).

(** [replacementCount > 0 && replacementCount > utf8Text.length * 0.01];
    for integers the comparison with the double [length * 0.01] is the
    comparison [100 * replacementCount > length]. *)
Definition looks_misdecoded (utf8Text : jsstring) : bool :=
  let n := replacementCount utf8Text in
  (0 <? n)%nat && (length utf8Text <? 100 * n)%nat.

(** An extraction call, as opposed to the other effects. *)
Definition is_extraction {pdf_error : Type} (e : effect pdf_error) : bool :=
  match e with
  | ExtractPdf | ExtractEpub _ | ExtractMobi _ | ReadText _ => true
  | _ => false
  end.

Section Ingest.
Context `{TextDecoder} `{Epub.Platform}.

(** [readTextFile]: the text, and what was written to the console. *)
Definition readTextFile (file : File) : jsstring * list decode_log :=
  let buffer := file_bytes file in
  let utf8Text := decode_utf8 buffer in
  if looks_misdecoded utf8Text then
    match decode_gb18030 buffer with
    | Some gbkText => (gbkText, [AttemptGb18030])
    | None => (utf8Text, [AttemptGb18030; Gb18030Failed])
    end
  else (utf8Text, []).

(** The PDF extractor of [services/pdf.ts] with its errors, and the
    services called once the text is there. *)
Context {pdf_error : Type}.
Variable extractTextFromPdf : File -> result pdf_error jsstring.
Variable generateBookMetadata : jsstring -> Metadata.
Variable generateCoverImage :
  jsstring -> jsstring -> jsstring -> result unit (option jsstring).
Variable randomUUID : jsstring.
Variable now : Z.

(** Step 2 of [processFile]: the extractor chosen from the MIME type and
    the lower-cased name, its text or error, the format, and the call
    made. *)
Definition extract (file : File)
  : result (error pdf_error) jsstring * format * effect pdf_error :=
  let fileName := toLowerCase (file_name file) in
  if bool_decide (file_type file = js "application/pdf")
     || endsWith (js ".pdf") fileName then
    (match extractTextFromPdf file with
     | Ok text => Ok text
     | Err e => Err (PdfError e)
     end, pdf, ExtractPdf)
  else if endsWith (js ".epub") fileName then
    let '(r, out) := Epub.extractTextFromEpub file in
    (match r with Ok text => Ok text | Err e => Err (EpubError e) end,
     epub, ExtractEpub out)
  else if endsWith (js ".mobi") fileName then
    let '(r, out) := Mobi.extractTextFromMobi file in
    (match r with Ok text => Ok text | Err e => Err (MobiError e) end,
     mobi, ExtractMobi out)
  else
    let '(text, out) := readTextFile file in
    (Ok text, if endsWith (js ".md") fileName then md else txt, ReadText out).

(** "https://placehold.co/300x450/e2e8f0/475569?text=" *)
Definition placeholder_cover : jsstring :=
  js "https://placehold.co/300x450/e2e8f0/475569?text=".

(** Step 3 of [processFile]: the book built from the text. *)
Definition add_book (text : jsstring) (fmt : format)
  : list (effect pdf_error) :=
  let metadata := generateBookMetadata (substring0 3000 text) in
  let fallback := placeholder_cover ++ substring0 10 (meta_title metadata) in
  let '(coverUrl, log) :=
    match generateCoverImage (meta_title metadata) (meta_author metadata)
            (meta_description metadata) with
    | Ok (Some generatedCover) =>
        (if truthy generatedCover then generatedCover else fallback, [])
    | Ok None => (fallback, [])
    | Err _ => (fallback, [CoverSkippedLog])
    end in
  log ++
  [OnAddBook
     (mkBook randomUUID (meta_title metadata) (meta_author metadata)
        (meta_description metadata) (meta_tags metadata) text fmt coverUrl
        now 0)].

(** [processFile]: what it does, in order. *)
Definition processFile (file : File) : list (effect pdf_error) :=
  if (MAX_FILE_SIZE <? file_size file)%Z then
    [Alert (FileTooLarge (file_size file))]
  else
    let '(r, fmt, call) := extract file in
    [SetIsUploading true; call] ++
    match r with
    | Err e => [UploadFailedLog e; Alert (UploadFailed e)]
    | Ok text =>
        if truthy (trim text) then add_book text fmt
        else [UploadFailedLog EmptyContent; Alert (UploadFailed EmptyContent)]
    end ++
    [SetIsUploading false].

End Ingest.
End Library.

(** ** Notions used in the statements *)

(** The lines, each followed by its line terminator. *)
Definition join_lines (ls : list jsstring) : jsstring :=
  concat (List.map (fun l => l ++ [NL]) ls).

(** White space only. *)
Definition blank (s : jsstring) : bool := forallb is_ws s.

Module ReaderInv.
Import Reader.

(** Accumulated raw line length: the sum of the lengths of the lines,
    line terminators not counted. *)
Definition line_total (ls : list jsstring) : nat :=
  list_sum (List.map (fun l => length l) ls).

(** [indexed st]: the page counter is the number of flushed pages, and an
    entry points at most one page past it, and then only while the chunk
    being accumulated already has visible text. *)
Definition indexed (st : state) : Prop :=
  curIndex st = length (newPages st) /\
  Forall (fun e => pageIndex e <= curIndex st \/
                   (pageIndex e = S (curIndex st) /\
                    blank (currentChunk st) = false))%nat (tempToc st).

(** [page_exists p st]: page [p] is flushed, or is the chunk being
    accumulated and has visible text. *)
Definition page_exists (p : nat) (st : state) : Prop :=
  (p < length (newPages st))%nat \/
  (p = length (newPages st) /\ blank (currentChunk st) = false).

(** A flushed group of lines: the budget is exceeded by its last line and
    not before. *)
Definition full_group (budget : nat) (g : list jsstring) : Prop :=
  exists ls l, g = ls ++ [l] /\
               (line_total ls <= budget)%nat /\ (budget < line_total g)%nat.

(** [grouped budget consumed st]: the lines consumed so far are the
    flushed groups, one per page, followed by the lines of the current
    chunk. *)
Definition grouped (budget : nat) (consumed : list jsstring) (st : state)
  : Prop :=
  exists groups cur,
    consumed = concat groups ++ cur /\
    newPages st = join_lines <$> groups /\
    Forall (full_group budget) groups /\
    currentChunk st = join_lines cur /\
    currentLength st = line_total cur /\
    (currentLength st <= budget)%nat.

End ReaderInv.

Module EpubSpec.
Import Epub.

(** The [href] that a spine item leads to through the manifest. *)
Definition href_of (items : list Item) (idref : option jsstring)
  : option jsstring :=
  id ← present idref; present (find_item items id ≫= item_href).

(** The content document of a spine item: the non-empty archive entry at
    its decoded path, if any. *)
Definition resolve `{Platform} (zip : gmap (list Z) (list Z))
  (opfDir : jsstring) (items : list Item) (idref : option jsstring)
  : option jsstring :=
  href ← href_of items idref;
  fileKey ← decodeURIComponent (opfDir ++ href);
  present (zip !! fileKey).

(** The stripped text of the documents, each followed by two newlines. *)
Definition chapters_text `{Platform} (docs : list jsstring) : jsstring :=
  concat ((fun d => stripHtml d ++ [NL; NL]) <$> docs).

(** No path of the spine makes [decodeURIComponent] throw. *)
Definition hrefs_decode `{Platform} (opfDir : jsstring) (items : list Item)
  (itemrefs : list (option jsstring)) : Prop :=
  forall idref href,
    idref ∈ itemrefs -> href_of items idref = Some href ->
    is_Some (decodeURIComponent (opfDir ++ href)).

End EpubSpec.

(** ** Examples *)

Module Demo.
Import Epub Library.

(** A small book: the container names [c.opf]; the manifest declares
    [b] before [a]; the spine reads [a], then [x] (in the manifest, but
    its file is not in the archive), then [b].  The documents are plain
    text, and no path has a percent sign, so that [stripHtml] and
    [decodeURIComponent] leave them as they are. *)
Definition demo_zip : gmap (list Z) (list Z) :=
  {[ js "META-INF/container.xml" := js "<container/>";
     js "c.opf" := js "<package/>";
     js "a.html" := js "One";
     js "b.html" := js "Two" ]}.

Definition demo_items : list Item :=
  [mkItem (Some (js "b")) (Some (js "b.html"));
   mkItem (Some (js "x")) (Some (js "x.html"));
   mkItem (Some (js "a")) (Some (js "a.html"))].

Definition demo_spine : list (option jsstring) :=
  [Some (js "a"); Some (js "x"); Some (js "b")].

Definition demo_platform : Platform := {|
  loadAsync := fun _ => Some demo_zip;
  rootfile_full_path := fun _ => Some (js "c.opf");
  parse_opf := fun _ => mkOpf (Some demo_items) (Some demo_spine);
  stripHtml := fun s => s;
  decodeURIComponent := fun s => Some s
|}.

Definition demo_file : File := mkFile (js "demo.epub") [] 4 [].

(** Decoders for the examples.  A byte below 128 is its character, in
    UTF-8 and in GB18030; the first decoder replaces any other byte by
    U+FFFD, the second one reads the pair B5 DA as "第" and gives up on
    anything else. *)
Definition ascii_or_replacement (b : Byte.byte) : Z :=
  let n := Z.of_N (Byte.to_N b) in
  if (n <? 128)%Z then n else 65533.

Fixpoint demo_gb18030 (b : list Byte.byte) : option jsstring :=
  match b with
  | [] => Some []
  | x :: r =>
      let n := Z.of_N (Byte.to_N x) in
      if (n <? 128)%Z then cons n <$> demo_gb18030 r
      else match x, r with
           | Byte.xb5, Byte.xda :: r' => cons 31532 <$> demo_gb18030 r'
           | _, _ => None
           end
  end.

Definition demo_decoder : TextDecoder := {|
  decode_utf8 := List.map ascii_or_replacement;
  decode_gb18030 := demo_gb18030
|}.

(** Files. *)
Definition clean_file : File := mkFile (js "a.txt") [] 2 [Byte.x68; Byte.x69].
Definition gbk_file : File := mkFile (js "b.txt") [] 2 [Byte.xb5; Byte.xda].
Definition broken_file : File := mkFile (js "c.txt") [] 1 [Byte.xff].

(** The services of the examples. *)
Definition demo_pdf (file : File) : result unit jsstring := Ok (js " ").
Definition demo_metadata (snippet : jsstring) : Metadata :=
  mkMetadata (js "T") (js "A") [] (js "D").
Definition demo_cover (t a d : jsstring) : result unit (option jsstring) :=
  Ok None.

Definition demo_ingest (file : File) : list (effect unit) :=
  @processFile demo_decoder demo_platform unit
    demo_pdf demo_metadata demo_cover (js "id") 0 file.

Definition blank_pdf : File := mkFile (js "blank.PDF") [] 1 [Byte.x20].
Definition huge_file : File := mkFile (js "huge.txt") [] 52428801 [].

End Demo.

(** ** String literals beyond ASCII *)

(** The UTF-16 code units of a text given by its UTF-8 bytes: a literal
    of this file is written in UTF-8, a string of the program is UTF-16. *)
Fixpoint utf16_of_utf8 (bs : list Z) : jsstring :=
  match bs with
  | [] => []
  | b :: r =>
      if b <? 128 then b :: utf16_of_utf8 r
      else if b <? 224 then
        match r with
        | b1 :: r1 => (b mod 32 * 64 + b1 mod 64) :: utf16_of_utf8 r1
        | _ => []
        end
      else if b <? 240 then
        match r with
        | b1 :: b2 :: r2 =>
            (b mod 16 * 4096 + b1 mod 64 * 64 + b2 mod 64)
              :: utf16_of_utf8 r2
        | _ => []
        end
      else
        match r with
        | b1 :: b2 :: b3 :: r3 =>
            let cp := b mod 8 * 262144 + b1 mod 64 * 4096
                      + b2 mod 64 * 64 + b3 mod 64 - 65536 in
            (55296 + cp / 1024) :: (56320 + cp mod 1024) :: utf16_of_utf8 r3
        | _ => []
        end
  end.

Definition utf16 (s : string) : jsstring := utf16_of_utf8 (js s).

(** [String(n)] for a natural number: its decimal digits. *)
Fixpoint digits (u : Decimal.uint) : jsstring :=
  match u with
  | Decimal.Nil => []
  | Decimal.D0 u => 48 :: digits u
  | Decimal.D1 u => 49 :: digits u
  | Decimal.D2 u => 50 :: digits u
  | Decimal.D3 u => 51 :: digits u
  | Decimal.D4 u => 52 :: digits u
  | Decimal.D5 u => 53 :: digits u
  | Decimal.D6 u => 54 :: digits u
  | Decimal.D7 u => 55 :: digits u
  | Decimal.D8 u => 56 :: digits u
  | Decimal.D9 u => 57 :: digits u
  end.

Definition decimal (n : nat) : jsstring := digits (Nat.to_uint n).

(** [s.includes(sub)] *)
Fixpoint includes (sub s : jsstring) : bool :=
  startsWith sub s ||
  match s with
  | [] => false
  | _ :: r => includes sub r
  end.

(** ** Reader view: navigation and night mode ([views/Reader.tsx]) *)

Module ReaderView.
Import Reader.

Inductive ThemeName := light | sepia | dark | slate | green.
Inductive FontFamily := serif | sans | mono | art.

Record ReaderSettings := mkSettings {
  theme : ThemeName;
  fontSize : Q;
  fontFamily : FontFamily;
  lineHeight : Q;
  maxWidth : Q
}.

(** [settings.theme === 'dark' || settings.theme === 'slate'] *)
Definition isNightMode (settings : ReaderSettings) : bool :=
  match theme settings with
  | dark | slate => true
  | _ => false
  end.

(** [toggleNightMode]: [{ ...prev, theme: isDark ? 'light' : 'dark' }]. *)
Definition toggleNightMode (settings : ReaderSettings) : ReaderSettings :=
  let isDark := isNightMode settings in
  mkSettings (if isDark then light else dark) (fontSize settings)
    (fontFamily settings) (lineHeight settings) (maxWidth settings).

(** The state of the view that navigation reads and writes. *)
Record state := mkState {
  pages : list jsstring;
  toc : list TocItem;
  currentPage : Z;
  jumpInput : jsstring;
  showToc : bool
}.

(** The effect of [processContent] for a book with no progress recorded:
    [setPages], [setToc] and [setCurrentPage(1)]. *)
Definition open_book (content : jsstring) : state :=
  let '(newPages, tempToc) := processContent content in
  mkState newPages tempToc 1 [] false.

(** [handlePageChange]: the page changes only to a page that exists (the
    scrolling of the content area is not modelled). *)
Definition handlePageChange (newPage : Z) (s : state) : state :=
  if (1 <=? newPage) && (newPage <=? Z.of_nat (length (pages s)))
  then mkState (pages s) (toc s) newPage (jumpInput s) (showToc s)
  else s.

(** [pages[currentPage - 1]], or the empty string when there is no such
    page. *)
Definition currentContent (s : state) : jsstring :=
  if currentPage s - 1 <? 0 then []
  else default [] (pages s !! Z.to_nat (currentPage s - 1)).

Section Navigation.
(** [parseInt], [None] for [NaN]. *)
Variable parseInt : jsstring -> option Z.

(** [handleJumpSubmit] *)
Definition handleJumpSubmit (s : state) : state :=
  let s' := match parseInt (jumpInput s) with
            | Some p => handlePageChange p s
            | None => s
            end in
  mkState (pages s') (toc s') (currentPage s') [] (showToc s').

(** What the user does with the controls of the view. *)
Inductive action :=
| PrevPage                    (* [handlePageChange(currentPage - 1)] *)
| NextPage                    (* [handlePageChange(currentPage + 1)] *)
| TocClick (item : TocItem)
    (* [handlePageChange(item.pageIndex + 1); setShowToc(false)] *)
| SetShowToc (b : bool)
| SetJumpInput (v : jsstring)
| JumpSubmit.

Definition act (s : state) (a : action) : state :=
  match a with
  | PrevPage => handlePageChange (currentPage s - 1) s
  | NextPage => handlePageChange (currentPage s + 1) s
  | TocClick item =>
      let s' := handlePageChange (Z.of_nat (pageIndex item) + 1) s in
      mkState (pages s') (toc s') (currentPage s') (jumpInput s') false
  | SetShowToc b =>
      mkState (pages s) (toc s) (currentPage s) (jumpInput s) b
  | SetJumpInput v =>
      mkState (pages s) (toc s) (currentPage s) v (showToc s)
  | JumpSubmit => handleJumpSubmit s
  end.

Definition acts (s : state) (l : list action) : state := fold_left act l s.

End Navigation.
End ReaderView.

(** ** The whole PDF document ([services/pdf.ts]) *)

Module PdfDocument.
Import Pdf.

(** An exception, by its [name] and its [message]. *)
Record exception := mkException {
  exn_name : jsstring;
  exn_message : jsstring
}.

(** The loaded document: [numPages], and for a page number the items of
    [(await pdf.getPage(i)).getTextContent()], or what that throws. *)
Record PDFDocumentProxy := mkDocument {
  numPages : nat;
  textContent : nat -> result exception (list TextItem)
}.

(** [pdfjs.getDocument(..).promise] on the bytes of the file. *)
Class PdfJs := {
  getDocument : File -> result exception PDFDocumentProxy
}.

(** What the function throws. *)
Inductive error :=
| Encrypted     (* Error("该 PDF 文件已加密，无法直接读取。请先移除密码保护。") *)
| InvalidPdf    (* Error("PDF 文件格式无效或已损坏。") *)
| ParseFailed (detail : jsstring).
                (* Error("PDF 解析失败: " + detail) *)

(** [console.error("Error extracting PDF text:", error)] *)
Inductive console := ConsoleError (cause : exception).

(** The separator written before the text of page [i]. *)
Definition page_marker (i : nat) : jsstring :=
  [NL; NL] ++ utf16 "--- 第 " ++ decimal i ++ utf16 " 页 ---" ++ [NL; NL].

Definition truncation_notice : jsstring :=
  [NL; NL] ++ utf16 "[注：为保证演示性能，仅提取了前 50 页的内容...]".

(** The loop over the page numbers: it stops at the first page that
    throws. *)
Fixpoint read_pages (pdf : PDFDocumentProxy) (numbers : list nat)
  (fullText : jsstring) : result exception jsstring :=
  match numbers with
  | [] => Ok fullText
  | i :: rest =>
      match textContent pdf i with
      | Err e => Err e
      | Ok items =>
          read_pages pdf rest
            (fullText ++ page_marker i ++ extractPageText items)
      end
  end.

(** [a || b] on strings. *)
Definition or_else (a b : jsstring) : jsstring := if truthy a then a else b.

(** The [catch] block: the error thrown for an exception.  The lower
    case is the ASCII one of the library view: no other character has a
    letter of "password" as its lower case. *)
Definition classify (e : exception) : error :=
  let errorMsg :=
    Library.toLowerCase (or_else (exn_message e) (exn_name e)) in
  if includes (js "password") errorMsg
     || bool_decide (exn_name e = js "PasswordException")
  then Encrypted
  else if bool_decide (exn_name e = js "InvalidPDFException")
  then InvalidPdf
  else ParseFailed (or_else (exn_message e) (utf16 "请检查文件是否完整")).

(** The [try] block from the loaded document on: at most 50 pages are
    read, and a notice follows when there are more. *)
Definition document_text (pdf : PDFDocumentProxy)
  : result exception jsstring :=
  let totalPages := numPages pdf in
  let pagesToRead := Nat.min totalPages 50 in
  match read_pages pdf (seq 1 pagesToRead) [] with
  | Err e => Err e
  | Ok fullText =>
      Ok (if (50 <? totalPages)%nat then fullText ++ truncation_notice
          else fullText)
  end.

Section Extract.
Context `{PdfJs}.

(** The [try] block. *)
Definition extract_body (file : File) : result exception jsstring :=
  match getDocument file with
  | Err e => Err e
  | Ok pdf => document_text pdf
  end.

(** [extractTextFromPdf]: the text or the error thrown, and what was
    written to the console. *)
Definition extractTextFromPdf (file : File)
  : result error jsstring * list console :=
  match extract_body file with
  | Ok fullText => (Ok fullText, [])
  | Err e => (Err (classify e), [ConsoleError e])
  end.

End Extract.
End PdfDocument.

(** ** The application state ([App.tsx]) *)

Module App.
Import Library.

Inductive ViewMode := library | reader | converter.

Record state := mkState {
  view : ViewMode;
  activeBook : option Book;
  books : list Book;
  isLoading : bool
}.

(** The initial state of the hooks. *)
Definition init : state := mkState library None [] true.

(** [{ ...b, progress }] *)
Definition with_progress (b : Book) (progress : Z) : Book :=
  mkBook (id b) (title b) (author b) (description b) (tags b) (content b)
    (book_format b) (coverUrl b) (addedAt b) progress.

(** [activeBook?.id === id] *)
Definition active_is (s : state) (bookId : jsstring) : bool :=
  match activeBook s with
  | Some b => bool_decide (id b = bookId)
  | None => false
  end.

(** [setBooks(prev => [...prev, book])] *)
Definition handleAddBook (book : Book) (s : state) : state :=
  mkState (view s) (activeBook s) (books s ++ [book]) (isLoading s).

Definition handleDeleteBook (bookId : jsstring) (s : state) : state :=
  let books' := List.filter (fun b => negb (bool_decide (id b = bookId)))
                  (books s) in
  if active_is s bookId then mkState library None books' (isLoading s)
  else mkState (view s) (activeBook s) books' (isLoading s).

Definition handleOpenBook (book : Book) (s : state) : state :=
  mkState reader (Some book) (books s) (isLoading s).

Definition handleUpdateProgress (bookId : jsstring) (progress : Z)
  (s : state) : state :=
  let books' := List.map (fun b => if bool_decide (id b = bookId)
                                   then with_progress b progress else b)
                  (books s) in
  if active_is s bookId
  then mkState (view s)
         (match activeBook s with
          | Some prev => Some (with_progress prev progress)
          | None => None
          end) books' (isLoading s)
  else mkState (view s) (activeBook s) books' (isLoading s).

Definition handleGoToConverter (book : Book) (s : state) : state :=
  mkState converter (Some book) (books s) (isLoading s).

Definition handleCloseView (s : state) : state :=
  mkState library None (books s) (isLoading s).

(** The timer of the mount effect: [setIsLoading(false)]. *)
Definition finishLoading (s : state) : state :=
  mkState (view s) (activeBook s) (books s) false.

(** What is rendered: the reader and the converter need an active
    book. *)
Inductive screen :=
| LibraryScreen (books : list Book)
| ReaderScreen (book : Book)
| ConverterScreen (book : Book)
| Blank.

Definition render (s : state) : screen :=
  match view s, activeBook s with
  | library, _ => LibraryScreen (books s)
  | reader, Some b => ReaderScreen b
  | converter, Some b => ConverterScreen b
  | _, None => Blank
  end.

(** One call of a handler, as the views make them: the library view opens
    and converts the books it lists. *)
Inductive step : state -> state -> Prop :=
| step_loaded s : step s (finishLoading s)
| step_add s book : step s (handleAddBook book s)
| step_delete s bookId : step s (handleDeleteBook bookId s)
| step_open s book : book ∈ books s -> step s (handleOpenBook book s)
| step_convert s book :
    book ∈ books s -> step s (handleGoToConverter book s)
| step_progress s bookId progress :
    step s (handleUpdateProgress bookId progress s)
| step_close s : step s (handleCloseView s).

Inductive reachable : state -> Prop :=
| reachable_init : reachable init
| reachable_step s s' : reachable s -> step s s' -> reachable s'.

End App.

(** ** The language model service ([services/gemini.ts]) *)

Module Gemini.
Import Library.

Inductive taskType := summarize | translate | modernize | screenplay.

(** What is used of the client: [ai.models.generateContent] for a model
    and a prompt gives [response.text], [None] when it is [undefined];
    [Err] when the call throws.  [JSON.parse] of the answer as metadata,
    [None] when it throws. *)
Class GenAI := {
  generateContent : jsstring -> jsstring -> result unit (option jsstring);
  parseMetadata : jsstring -> option Metadata
}.

(** Error("Gemini 处理失败。") *)
Inductive error := GeminiFailed.

Definition model : jsstring := js "gemini-2.5-flash".

(** The instruction of a task; [targetLanguage || '中文']. *)
Definition instruction (task : taskType) (targetLanguage : option jsstring)
  : jsstring :=
  match task with
  | summarize =>
      utf16 "请将以下文本总结为一个全面的概述，包括主要情节点、人物和主题。使用中文 Markdown 格式输出。"
  | translate =>
      utf16 "将以下文本翻译成"
      ++ (match targetLanguage with
          | Some (c :: l) => c :: l
          | _ => utf16 "中文"
          end)
      ++ utf16 "。保持原文的语气和风格。"
  | modernize =>
      utf16 "用现代、通俗易懂的中文重写以下文本，同时保留其原始含义和细微差别。"
  | screenplay =>
      utf16 "将以下叙事文本转换为中文剧本格式，包括场景标题、对话和动作描述。"
  end.

Definition CONTENT_LIMIT : nat := Z.to_nat 15000.

(** "\n\n...(文本已截断)..." *)
Definition cut_mark : jsstring := [NL; NL] ++ utf16 "...(文本已截断)...".

(** [fullPrompt] *)
Definition fullPrompt (content : jsstring) (task : taskType)
  (targetLanguage : option jsstring) : jsstring :=
  let contentChunk := take CONTENT_LIMIT content in
  instruction task targetLanguage ++ [NL; NL] ++ js "---" ++ [NL; NL]
  ++ contentChunk
  ++ (if (CONTENT_LIMIT <? length content)%nat then cut_mark else []).

(** The prompt of [generateBookMetadata]. *)
Definition metadata_prompt (contentSnippet : jsstring) : jsstring :=
  utf16 "分析以下书籍片段（前几千个字符）。" ++ [NL]
  ++ utf16 "      提取可能的标题和作者。" ++ [NL]
  ++ utf16 "      生成 3-5 个相关的中文流派标签。" ++ [NL]
  ++ utf16 "      写一段简短的中文简介（一句话）。" ++ [NL]
  ++ js "      " ++ [NL]
  ++ utf16 "      书籍片段:" ++ [NL]
  ++ js "      " ++ take 2000 contentSnippet.

(** The metadata when the answer has no text, and when the call or the
    parsing throws. *)
Definition no_text_metadata : Metadata :=
  mkMetadata (utf16 "未知标题") (utf16 "未知作者") [] [].

Definition fallback_metadata : Metadata :=
  mkMetadata (utf16 "未命名书籍") (utf16 "未知作者") [utf16 "导入"]
    (utf16 "暂无描述。").

Section Service.
Context `{GenAI}.

(** [processBookContent]: [response.text], or the error thrown (the line
    written to the console before the throw is left out). *)
Definition processBookContent (content : jsstring) (task : taskType)
  (targetLanguage : option jsstring) : result error (option jsstring) :=
  match generateContent model (fullPrompt content task targetLanguage) with
  | Ok text => Ok text
  | Err _ => Err GeminiFailed
  end.

(** [generateBookMetadata] *)
Definition generateBookMetadata (contentSnippet : jsstring) : Metadata :=
  match generateContent model (metadata_prompt contentSnippet) with
  | Ok (Some (c :: t)) =>
      match parseMetadata (c :: t) with
      | Some metadata => metadata
      | None => fallback_metadata
      end
  | Ok _ => no_text_metadata
  | Err _ => fallback_metadata
  end.

End Service.
End Gemini.

(** ** The converter view ([views/Converter.tsx]) *)

Module Converter.
Import Library Gemini.

Inductive status := idle | processing | completed | failed.

Record state := mkState {
  activeTask : taskType;
  taskStatus : status;
  result_text : option jsstring;     (* [result] *)
  targetLang : jsstring
}.

(** "英语" is the language selected at first. *)
Definition init : state := mkState summarize idle None (utf16 "英语").

(** The file offered by [downloadResult]. *)
Record download := mkDownload {
  download_name : jsstring;
  download_content : jsstring
}.

Definition task_name (task : taskType) : jsstring :=
  match task with
  | summarize => js "summarize"
  | translate => js "translate"
  | modernize => js "modernize"
  | screenplay => js "screenplay"
  end.

(** [downloadResult]: nothing without a result; else the file
    [`${book.title}-${activeTask}.md`] with the result as content. *)
Definition downloadResult (book : Book) (s : state) : option download :=
  match result_text s with
  | Some (c :: r) =>
      Some (mkDownload (title book ++ js "-" ++ task_name (activeTask s)
                        ++ js ".md") (c :: r))
  | _ => None
  end.

Section Process.
Context `{GenAI}.

(** [handleProcess] up to the call: [setStatus('processing')],
    [setResult(undefined)]. *)
Definition start (s : state) : state :=
  mkState (activeTask s) processing None (targetLang s).

(** [handleProcess] from the answer on. *)
Definition finish (book : Book) (s : state) : state :=
  match processBookContent (content book) (activeTask s)
          (Some (targetLang s)) with
  | Ok output => mkState (activeTask s) completed output (targetLang s)
  | Err _ => mkState (activeTask s) failed (result_text s) (targetLang s)
  end.

Definition handleProcess (book : Book) (s : state) : state :=
  finish book (start s).

(** What the user does in the view. *)
Inductive action :=
| SetActiveTask (task : taskType)
| SetTargetLang (lang : jsstring)
| Process.

Definition act (book : Book) (s : state) (a : action) : state :=
  match a with
  | SetActiveTask task =>
      mkState task (taskStatus s) (result_text s) (targetLang s)
  | SetTargetLang lang =>
      mkState (activeTask s) (taskStatus s) (result_text s) lang
  | Process => handleProcess book s
  end.

Definition acts (book : Book) (s : state) (l : list action) : state :=
  fold_left (act book) l s.

End Process.
End Converter.

(** ** The library view with its services *)

Module Ingest.
Import Library.

Section Wired.
Context `{TextDecoder} `{Epub.Platform} `{PdfDocument.PdfJs} `{Gemini.GenAI}.
(** [generateCoverImage], [crypto.randomUUID()] and [Date.now()]. *)
Variable generateCoverImage :
  jsstring -> jsstring -> jsstring -> result unit (option jsstring).
Variable randomUUID : jsstring.
Variable now : Z.

(** [processFile] with the extractor of [services/pdf.ts] and the metadata
    service of [services/gemini.ts]; what the PDF extractor writes to the
    console is not part of the trace. *)
Definition ingest (file : File) : list (effect PdfDocument.error) :=
  processFile (fun f => fst (PdfDocument.extractTextFromPdf f))
    Gemini.generateBookMetadata generateCoverImage randomUUID now file.

End Wired.
End Ingest.

(** ** Further notions used in the statements *)

Module ReaderSpec.
Import Reader.

(** A line that the paginator takes for a heading. *)
Definition is_heading (line : jsstring) : bool :=
  headerRegex_test (trim line).

(** What the table of contents shows of a heading line. *)
Definition shown (line : jsstring) : jsstring * nat :=
  (display_title (heading_title line), heading_level line).

(** A list of numbers that never goes down. *)
Definition nondecreasing (l : list nat) : Prop :=
  forall i j a b,
    (i <= j)%nat -> l !! i = Some a -> l !! j = Some b -> (a <= b)%nat.

(** [ordered budget st]: the page indices recorded so far never go down,
    and one beyond the current page was recorded when the accumulated
    length was, as it still is, beyond 80% of the budget. *)
Definition ordered (budget : nat) (st : state) : Prop :=
  nondecreasing (pageIndex <$> tempToc st) /\
  Forall (fun e => pageIndex e <= curIndex st \/
                   (pageIndex e = S (curIndex st) /\
                    near_boundary budget (currentLength st) = true))%nat
         (tempToc st).

(** [holds p chunk st]: page [p] starts with [chunk], as a flushed page or
    as the chunk being accumulated. *)
Definition holds (p : nat) (chunk : jsstring) (st : state) : Prop :=
  (exists page, newPages st !! p = Some page /\ chunk `prefix_of` page) \/
  (p = length (newPages st) /\ chunk `prefix_of` currentChunk st /\
   blank (currentChunk st) = false).

End ReaderSpec.

Module MobiSpec.
Import Mobi.

(** [s] is not readable at its end, respectively at its start. *)
Definition stops_at_end (s : jsstring) : Prop :=
  match last s with
  | Some c => is_readable c = false
  | None => True
  end.

Definition stops_at_start (s : jsstring) : Prop :=
  match s with
  | c :: _ => is_readable c = false
  | [] => True
  end.

(** No [<] of [s] has a [>] after it: nothing in [s] matches the tag
    pattern. *)
Definition tag_free (s : jsstring) : Prop :=
  forall a b, s = a ++ LT :: b -> GT ∉ b.

End MobiSpec.

Module AppSpec.
Import Library App.

(** The active book is set exactly outside the library view, and is then
    one of the books of the library. *)
Definition consistent (s : state) : Prop :=
  match activeBook s with
  | None => view s = library
  | Some b => view s <> library /\ b ∈ books s
  end.

End AppSpec.

Module PdfSpec.
Import Pdf.

(** What the extractor writes between two runs. *)
Definition is_separator (sep : jsstring) : Prop :=
  sep = [] \/ sep = [SPACE] \/ sep = [NL] \/ sep = [NL; NL].

(** The runs that are not skipped. *)
Definition runs (items : list TextItem) : list TextItem :=
  List.filter (fun item => negb (skipped (str item))) items.

End PdfSpec.

Module ReaderViewSpec.
Import ReaderView.

(** The page shown is a page of the book. *)
Definition on_a_page (s : state) : Prop :=
  1 <= currentPage s <= Z.of_nat (length (pages s)).

End ReaderViewSpec.

(** ** More examples *)

Module DemoMore.
Import Pdf PdfDocument.

(** A document of [n] pages with one run each; when [broken], the pages
    after the 50th throw. *)
Definition one_run_pages (n : nat) (broken : bool) : PDFDocumentProxy :=
  mkDocument n (fun i => if (50 <? i)%nat && broken
                         then Err (mkException (js "Error") (js "broken"))
                         else Ok [at_y (js "A") 700]).

(** A document of one page with no run at all, and a loader that gives
    it, or the empty document, by the name of the file. *)
Definition scanned : PDFDocumentProxy := mkDocument 1 (fun _ => Ok []).
Definition no_page : PDFDocumentProxy := mkDocument 0 (fun _ => Ok []).

(** A document of two pages whose pages throw. *)
Definition broken_first : PDFDocumentProxy :=
  mkDocument 2 (fun _ => Err (mkException (js "Error") (js "broken"))).

Definition demo_pdfjs : PdfJs := {|
  getDocument := fun file =>
    if bool_decide (file_name file = js "empty.pdf") then Ok no_page
    else Ok scanned
|}.

Definition scanned_file : File := mkFile (js "scan.PDF") [] 10 [].
Definition no_page_file : File := mkFile (js "empty.pdf") [] 10 [].

(** A service that answers with the prompt it was given, read as a
    title. *)
Definition echo_genai : Gemini.GenAI := {|
  Gemini.generateContent := fun _ prompt => Ok (Some prompt);
  Gemini.parseMetadata := fun s => Some (Library.mkMetadata s [] [] [])
|}.

(** The demo platform, except that a path with a percent sign is taken
    for a malformed URI, and a book whose second chapter has such a
    path. *)
Definition strict_platform : Epub.Platform := {|
  Epub.loadAsync := fun _ => Some Demo.demo_zip;
  Epub.rootfile_full_path := fun _ => Some (js "c.opf");
  Epub.parse_opf := fun _ =>
    Epub.mkOpf
      (Some [Epub.mkItem (Some (js "a")) (Some (js "a.html"));
             Epub.mkItem (Some (js "z")) (Some (js "%zz.html"));
             Epub.mkItem (Some (js "b")) (Some (js "b.html"))])
      (Some [Some (js "a"); Some (js "z"); Some (js "b")]);
  Epub.stripHtml := fun s => s;
  Epub.decodeURIComponent := fun s =>
    if existsb (Z.eqb 37) s then None else Some s
|}.

Definition book_a : Library.Book :=
  Library.mkBook (js "a") (js "A") [] [] [] (js "text a") Library.txt [] 1 0.
Definition book_b : Library.Book :=
  Library.mkBook (js "b") (js "B") [] [] [] (js "text b") Library.md [] 2 0.

Definition hello_mobi : File :=
  mkFile (js "Hello.MOBI") [] 11 (list_byte_of_string "Hello World").

Definition demo_wired (file : File)
  : list (Library.effect PdfDocument.error) :=
  @Ingest.ingest Demo.demo_decoder Demo.demo_platform demo_pdfjs echo_genai
    Demo.demo_cover (js "id") 0 file.

End DemoMore.

(** * Facts *)

(** ** Properties of strings *)

Section StringFacts.

Lemma split_lines_cons (c : Z) (r : jsstring) :
  c <> NL ->
  exists l ls, split_lines r = l :: ls /\ split_lines (c :: r) = (c :: l) :: ls.
Proof.
  intros Hc. simpl. destruct (Z.eqb_spec c NL) as [->|_]; [congruence|].
  destruct r as [|d r]; simpl.
  - eauto.
  - destruct (d =? NL); [eauto|].
    destruct (split_lines r); eauto.
Qed.

Lemma join_split (s : jsstring) : join_lines (split_lines s) = s ++ [NL].
Proof.
  induction s as [|c r IH]; [reflexivity|].
  destruct (Z.eq_dec c NL) as [->|Hc].
  - change (split_lines (NL :: r)) with ([] :: split_lines r).
    unfold join_lines in *. simpl. now rewrite IH.
  - destruct (split_lines_cons c r Hc) as (l & ls & E1 & E2).
    rewrite E2. rewrite E1 in IH. unfold join_lines in *. simpl in *.
    now rewrite IH.
Qed.

Lemma drop_while_nil (p : Z -> bool) (s : jsstring) :
  drop_while p s = [] <-> forallb p s = true.
Proof.
  induction s as [|c r IH]; simpl; [tauto|].
  destruct (p c); simpl; [exact IH|]. split; discriminate.
Qed.

Lemma drop_while_head (p : Z -> bool) (s : jsstring) c r :
  drop_while p s = c :: r -> p c = false.
Proof.
  induction s as [|d t IH]; simpl; [discriminate|].
  destruct (p d) eqn:E; [exact IH|]. intros [= <- _]. exact E.
Qed.

Lemma trim_nil_blank (s : jsstring) : trim s = [] <-> blank s = true.
Proof.
  unfold trim, blank. split.
  - intros H. apply drop_while_nil.
    destruct (drop_while is_ws s) as [|c r] eqn:E; [reflexivity|].
    apply drop_while_head in E.
    assert (H' : drop_while is_ws (rev (c :: r)) = []).
    { destruct (drop_while is_ws (rev (c :: r))); [reflexivity|].
      simpl in H. destruct (rev l); discriminate. }
    apply drop_while_nil in H'. rewrite forallb_forall in H'.
    rewrite (H' c) in E; [discriminate|].
    apply in_rev. rewrite rev_involutive. now left.
  - intros H. apply drop_while_nil in H. now rewrite H.
Qed.

Lemma truthy_trim (s : jsstring) : truthy (trim s) = negb (blank s).
Proof.
  destruct (blank s) eqn:E.
  - apply trim_nil_blank in E. now rewrite E.
  - destruct (trim s) eqn:T; [|reflexivity].
    apply trim_nil_blank in T. congruence.
Qed.

Lemma blank_app (a b : jsstring) : blank (a ++ b) = blank a && blank b.
Proof. apply forallb_app. Qed.

End StringFacts.

(** ** Properties of the paginator *)

Module ReaderFacts.
Import Reader ReaderInv.

(** The heading pattern on trimmed lines: ATX headings of one to six
    hashes, "第一章", "chapter 12" in any case; not seven hashes, not a
    lone hash, not "Chapter x". *)
Example heading_pattern_examples :
  List.map (fun l => headerRegex_test (trim l))
    [js "# Title"; js "###### x"; js "####### x"; js "#"; js "# ";
     [31532; 19968; 31456]; js "chapter 12"; js "CHAPTER  7."; js "Chapter x";
     js "  ## indented"]
  = [true; true; false; false; false; true; true; true; false; true].
Proof. vm_compute. reflexivity. Qed.

(** An indented heading matches once trimmed, and its level, read on the
    untrimmed line, is 1; a long title is cut at 20 characters. *)
Example heading_entry_examples :
  snd (processContent (js "  ## indented")) = [mkToc (js "indented") 0 1]
  /\ snd (processContent (js "### abcdefghijklmnopqrstuvwxyz"))
     = [mkToc (js "abcdefghijklmnopqrst...") 0 3].
Proof. split; vm_compute; reflexivity. Qed.

Section Loop.
Variable budget : nat.

Lemma run_app (a b : list jsstring) (st : state) :
  run budget (a ++ b) st = run budget b (run budget a st).
Proof. apply fold_left_app. Qed.

(** Anything preserved by one iteration is preserved by the loop. *)
Lemma run_invariant (P : state -> Prop) :
  (forall st l, P st -> P (step budget st l)) ->
  forall ls st, P st -> P (run budget ls st).
Proof.
  intros Hstep ls. induction ls as [|l ls IH]; intros st H; simpl.
  - exact H.
  - apply IH, Hstep, H.
Qed.

Lemma step_text (st : state) (l : jsstring) :
  concat (newPages (step budget st l)) ++ currentChunk (step budget st l)
  = (concat (newPages st) ++ currentChunk st) ++ l ++ [NL].
Proof.
  unfold step. destruct (_ <? _)%nat; simpl.
  - rewrite concat_app. simpl. now rewrite !app_nil_r, <- !app_assoc.
  - now rewrite <- !app_assoc.
Qed.

(** The flushed pages followed by the chunk being accumulated are the
    lines consumed so far, each with its line terminator. *)
Lemma run_text (ls : list jsstring) (st : state) :
  concat (newPages (run budget ls st)) ++ currentChunk (run budget ls st)
  = (concat (newPages st) ++ currentChunk st) ++ join_lines ls.
Proof.
  revert st. induction ls as [|l ls IH]; intros st.
  - simpl. now rewrite app_nil_r.
  - change (run budget (l :: ls) st) with (run budget ls (step budget st l)).
    rewrite IH, step_text. unfold join_lines. simpl.
    now rewrite <- !app_assoc.
Qed.

End Loop.

Section Index.
Variable budget : nat.

(** Every alternative of the heading pattern starts with a character that
    is not white space. *)
Lemma header_not_blank (l : jsstring) :
  headerRegex_test (trim l) = true -> blank l = false.
Proof.
  intros H. destruct (blank l) eqn:B; [|reflexivity].
  apply trim_nil_blank in B. rewrite B in H. discriminate.
Qed.

Lemma step_toc (st : state) (l : jsstring) :
  tempToc (step budget st l)
  = tempToc st ++ (if headerRegex_test (trim l)
                   then [toc_entry budget st l] else []).
Proof.
  unfold step.
  destruct (headerRegex_test (trim l)), (_ <? _)%nat; simpl;
    now rewrite ?app_nil_r.
Qed.

(** The table of contents only grows, at its end. *)
Lemma run_toc_grows (ls : list jsstring) (st : state) :
  exists later, tempToc (run budget ls st) = tempToc st ++ later.
Proof.
  revert st. induction ls as [|l ls IH]; intros st.
  - exists []. simpl. now rewrite app_nil_r.
  - change (run budget (l :: ls) st) with (run budget ls (step budget st l)).
    destruct (IH (step budget st l)) as [later E]. rewrite E, step_toc.
    rewrite <- app_assoc. eauto.
Qed.

Lemma indexed_init : indexed init.
Proof. split; [reflexivity|constructor]. Qed.

Lemma indexed_step (st : state) (l : jsstring) :
  indexed st -> indexed (step budget st l).
Proof.
  intros [Hi Ht]. split.
  - unfold step. destruct (_ <? _)%nat; simpl; [|exact Hi].
    rewrite length_app. simpl. lia.
  - rewrite step_toc. apply Forall_app. split.
    + eapply Forall_impl; [exact Ht|]. intros e He. simpl in He.
      unfold step. destruct (_ <? _)%nat; simpl.
      * left. lia.
      * destruct He as [He|[He Hb]]; [now left|right]. split; [exact He|].
        rewrite blank_app, Hb. reflexivity.
    + destruct (headerRegex_test (trim l)) eqn:Hh; [|constructor].
      apply header_not_blank in Hh.
      constructor; [|constructor].
      unfold toc_entry, step. simpl.
      destruct (_ <? _)%nat; simpl.
      * left. destruct (near_boundary _ _); lia.
      * destruct (near_boundary _ _); [right|left; lia].
        split; [reflexivity|].
        rewrite !blank_app, Hh. now rewrite andb_false_r.
Qed.

Lemma indexed_run (ls : list jsstring) : indexed (run budget ls init).
Proof. apply run_invariant; [apply indexed_step|apply indexed_init]. Qed.

Lemma page_exists_step (p : nat) (st : state) (l : jsstring) :
  page_exists p st -> page_exists p (step budget st l).
Proof.
  unfold page_exists, step. intros H.
  destruct (_ <? _)%nat; simpl.
  - left. rewrite length_app. simpl. lia.
  - destruct H as [H|[H Hb]]; [now left|right]. split; [exact H|].
    rewrite blank_app, Hb. reflexivity.
Qed.

Lemma page_exists_heading (st : state) (l : jsstring) :
  headerRegex_test (trim l) = true ->
  page_exists (length (newPages st)) (step budget st l).
Proof.
  intros Hh. apply header_not_blank in Hh. unfold page_exists, step.
  destruct (_ <? _)%nat; simpl.
  - left. rewrite length_app. simpl. lia.
  - right. split; [reflexivity|].
    rewrite !blank_app, Hh. now rewrite andb_false_r.
Qed.

Lemma finish_length (st : state) :
  length (fst (finish st))
  = Nat.max 1 (length (newPages st)
               + (if blank (currentChunk st) then 0 else 1)).
Proof.
  unfold finish. simpl. rewrite truthy_trim.
  destruct (blank (currentChunk st)); simpl.
  - destruct (newPages st); simpl; [reflexivity|lia].
  - rewrite length_app. simpl.
    replace (length (newPages st) + 1 =? 0)%nat with false
      by (symmetry; apply Nat.eqb_neq; lia).
    rewrite length_app. simpl. lia.
Qed.

Lemma page_exists_finish (p : nat) (st : state) :
  page_exists p st -> (p < length (fst (finish st)))%nat.
Proof.
  rewrite finish_length. intros [H|[H Hb]]; [lia|]. rewrite Hb. lia.
Qed.

End Index.

Section Grouping.
Variable budget : nat.

Lemma line_total_snoc (ls : list jsstring) (l : jsstring) :
  line_total (ls ++ [l]) = (line_total ls + length l)%nat.
Proof.
  unfold line_total. rewrite List.map_app, list_sum_app. simpl. lia.
Qed.

Lemma join_lines_snoc (ls : list jsstring) (l : jsstring) :
  join_lines (ls ++ [l]) = join_lines ls ++ l ++ [NL].
Proof.
  unfold join_lines. rewrite List.map_app, concat_app. simpl.
  now rewrite app_nil_r.
Qed.

Lemma grouped_step (consumed : list jsstring) (st : state) (l : jsstring) :
  grouped budget consumed st ->
  grouped budget (consumed ++ [l]) (step budget st l).
Proof.
  intros (groups & cur & Hc & Hp & Hg & Hk & Hl & Hb). unfold step.
  destruct (Nat.ltb_spec budget (currentLength st + length l)) as [Hf|Hf].
  - exists (groups ++ [cur ++ [l]]), []. simpl.
    rewrite concat_app, fmap_app, Hp, Hk, Hc. simpl.
    rewrite join_lines_snoc, !app_nil_r, <- app_assoc.
    repeat split; try lia.
    apply Forall_app. split; [exact Hg|]. constructor; [|constructor].
    exists cur, l. rewrite line_total_snoc. repeat split; lia.
  - exists groups, (cur ++ [l]). simpl.
    rewrite Hc, Hk, join_lines_snoc, line_total_snoc, <- !app_assoc.
    repeat split; auto; lia.
Qed.

Lemma grouped_run (ls : list jsstring) :
  grouped budget ls (run budget ls init).
Proof.
  induction ls as [|l ls IH] using rev_ind.
  - exists [], []. simpl. repeat split; auto using Forall_nil; lia.
  - rewrite run_app. now apply grouped_step.
Qed.

(** A page that is not the last one was flushed by the loop. *)
Lemma not_last_flushed (st : state) (i : nat) (page : jsstring) :
  fst (finish st) !! i = Some page ->
  (S i < length (fst (finish st)))%nat ->
  newPages st !! i = Some page.
Proof.
  unfold finish. simpl.
  destruct (truthy (trim (currentChunk st))).
  - rewrite length_app. simpl length.
    replace (length (newPages st) + 1 =? 0)%nat with false
      by (symmetry; apply Nat.eqb_neq; lia).
    rewrite length_app. simpl. intros H Hi.
    rewrite lookup_app_l in H by lia. exact H.
  - destruct (newPages st); simpl; [lia|auto].
Qed.

Lemma split_lines_one_line (s : jsstring) :
  Forall (fun c => c <> NL) s -> split_lines s = [s].
Proof.
  induction 1 as [|c r Hc _ IH]; [reflexivity|].
  destruct (split_lines_cons c r Hc) as (l & ls & E1 & E2).
  rewrite E2. rewrite IH in E1. now inversion E1.
Qed.

End Grouping.



(** C2, as stated, fails: a heading seen when more than 80% of the budget
    is accumulated, with no page flushed after it, is indexed one past the
    last page.  Here the text is 961 letters, a line break and "# T". *)
Lemma toc_index_past_last_page :
  let r := processContent (repeat 97 961 ++ [NL] ++ js "# T") in
  List.map pageIndex (snd r) = [1%nat] /\ length (fst r) = 1%nat.
Proof. vm_compute. split; reflexivity. Qed.

(** C2 (amended): every entry of the table of contents has
    [0 <= pageIndex <= pages.length]; the entry of a heading seen while the
    accumulated length is at most 80% of the budget has
    [pageIndex < pages.length]. *)
Theorem toc_index_bound (budget : nat) (text : jsstring) :
  Forall (fun e => (0 <= pageIndex e <= length (fst (paginate budget text)))%nat)
         (snd (paginate budget text))
  /\ forall pre l post,
       split_lines text = pre ++ l :: post ->
       headerRegex_test (trim l) = true ->
       near_boundary budget (currentLength (run budget pre init)) = false ->
       (pageIndex (toc_entry budget (run budget pre init) l)
        < length (fst (paginate budget text)))%nat.
Proof.
  unfold paginate. split.
  - destruct (indexed_run budget (split_lines text)) as [Hi Ht].
    set (st := run budget (split_lines text) init) in *.
    change (snd (finish st)) with (tempToc st).
    eapply Forall_impl; [exact Ht|]. intros e He. simpl in He.
    rewrite finish_length. split; [lia|].
    destruct He as [He|[He Hb]]; [lia|]. rewrite Hb. lia.
  - intros pre l post E Hh Hn. rewrite E.
    change (pre ++ l :: post) with (pre ++ [l] ++ post).
    rewrite !run_app. apply page_exists_finish.
    apply (run_invariant budget (page_exists _));
      [intros; now apply page_exists_step|].
    unfold toc_entry. simpl pageIndex. rewrite Hn.
    destruct (indexed_run budget pre) as [-> _].
    now apply page_exists_heading.
Qed.

Lemma toc_index_bound_witness :
  (pageIndex (toc_entry 1200 (run 1200 [] init) (js "# T"))
   < length (fst (paginate 1200 (js "# T"))))%nat.
Proof.
  apply (proj2 (toc_index_bound 1200 (js "# T")) [] (js "# T") []);
    reflexivity.
Defined.



(** C10: the budget is a flush threshold, not a bound.  Every page but
    the last is a run of consecutive lines of the text, each with its line
    terminator, whose accumulated raw length exceeds the budget, and did
    not before its last line; a text of one line longer than the budget is
    a single page holding the whole line. *)
Theorem budget_is_flush_threshold (budget : nat) (text : jsstring) :
  (forall i page,
      fst (paginate budget text) !! i = Some page ->
      (S i < length (fst (paginate budget text)))%nat ->
      exists before ls l after,
        split_lines text = before ++ (ls ++ [l]) ++ after /\
        page = join_lines (ls ++ [l]) /\
        (line_total ls <= budget)%nat /\
        (budget < line_total (ls ++ [l]))%nat)
  /\ (Forall (fun c => c <> NL) text ->
      (budget < length text)%nat ->
      fst (paginate budget text) = [text ++ [NL]]).
Proof.
  split.
  - unfold paginate. intros i page Hp Hi.
    apply not_last_flushed in Hp; [|exact Hi].
    destruct (grouped_run budget (split_lines text))
      as (groups & cur & Hc & Hn & Hg & _).
    rewrite Hn, list_lookup_fmap in Hp.
    destruct (groups !! i) as [g|] eqn:G; [|discriminate].
    injection Hp as <-.
    pose proof (proj1 (Forall_lookup _ _) Hg i g G) as (ls & l & -> & H1 & H2).
    exists (concat (take i groups)), ls, l, (concat (drop (S i) groups) ++ cur).
    repeat split; auto.
    rewrite Hc. rewrite <- (take_drop_middle groups i _ G) at 1.
    rewrite concat_app. simpl. now rewrite <- !app_assoc.
  - intros Hnl Hlen. unfold paginate.
    rewrite (split_lines_one_line _ Hnl). simpl. unfold step. simpl.
    destruct (Nat.ltb_spec budget (length text)) as [_|]; [|lia].
    reflexivity.
Qed.

Lemma budget_is_flush_threshold_witness :
  (exists before ls l after,
      split_lines (js "abcd" ++ [NL] ++ js "x")
      = before ++ (ls ++ [l]) ++ after /\
      js "abcd" ++ [NL] = join_lines (ls ++ [l]) /\
      (line_total ls <= 3)%nat /\ (3 < line_total (ls ++ [l]))%nat)
  /\ fst (paginate 3 (js "abcd")) = [js "abcd" ++ [NL]].
Proof.
  split.
  - apply (proj1 (budget_is_flush_threshold 3 (js "abcd" ++ [NL] ++ js "x"))
             0%nat (js "abcd" ++ [NL])); [reflexivity|simpl; lia].
  - apply (proj2 (budget_is_flush_threshold 3 (js "abcd")));
      [repeat constructor; discriminate|simpl; lia].
Defined.

End ReaderFacts.

(** ** Properties of the PDF layout extractor *)

Module PdfFacts.
Import Pdf.
Local Open Scope Q_scope.

Lemma Qltb_lt (a b : Q) : Qltb a b = true <-> a < b.
Proof.
  unfold Qltb. rewrite negb_true_iff, <- not_true_iff_false, Qle_bool_iff.
  split; [apply Qnot_le_lt|apply Qlt_not_le].
Qed.

Lemma Qltb_ge (a b : Q) : Qltb a b = false <-> b <= a.
Proof.
  unfold Qltb. now rewrite negb_false_iff, Qle_bool_iff.
Qed.

Lemma skipped_false (s : jsstring) :
  skipped s = false -> exists c r, s = c :: r.
Proof.
  destruct s as [|c r]; [discriminate|eauto].
Qed.

Lemma last_of_run (pre s : jsstring) :
  s <> [] -> last (pre ++ s) = last s.
Proof.
  intros Hs. destruct s as [|c r] using rev_ind; [congruence|].
  now rewrite app_assoc, !last_snoc.
Qed.

(** Away from a previous baseline equal to the marker [-9999], two
    consecutive non-empty runs are separated by the rule of the vertical
    difference. *)
Lemma gap_rule (st : state) (a b : TextItem) :
  skipped (str a) = false ->
  skipped (str b) = false ->
  ~ currentY_of a == NO_LAST_Y ->
  let yDiff := currentY_of a - currentY_of b in
  exists sep,
    pageText (step (step st a) b) = pageText (step st a) ++ sep ++ str b /\
    (24 < yDiff -> sep = [NL; NL]) /\
    (8 < yDiff /\ yDiff <= 24 -> sep = [NL]) /\
    (yDiff < -8 -> sep = [SPACE]) /\
    (-8 <= yDiff /\ yDiff <= 8 ->
     exists lastChar currChar,
       last (str a) = Some lastChar /\ head (str b) = Some currChar /\
       sep = if negb (isCJK lastChar) && negb (isCJK currChar)
                && negb (lastChar =? SPACE)%Z && negb (lastChar =? NL)%Z
             then [SPACE] else []).
Proof.
  intros Ha Hb Hy yDiff.
  destruct (skipped_false _ Ha) as (ca & ra & Ea).
  destruct (skipped_false _ Hb) as (cb & rb & Eb).
  assert (HlastY : lastY (step st a) = currentY_of a).
  { unfold step. now rewrite Ha. }
  assert (Hlast : last (pageText (step st a)) = last (str a)).
  { unfold step. rewrite Ha. simpl. rewrite app_assoc.
    apply last_of_run. now rewrite Ea. }
  unfold step at 1. rewrite Hb, HlastY.
  destruct (Qeq_bool (currentY_of a) NO_LAST_Y) eqn:Hq.
  { apply Qeq_bool_iff in Hq. contradiction. }
  simpl negb. cbv iota. fold yDiff.
  exists (separator yDiff (pageText (step st a)) (str b)).
  split; [reflexivity|]. unfold separator.
  destruct (Qltb 8 yDiff) eqn:H8.
  - apply Qltb_lt in H8. destruct (Qltb 24 yDiff) eqn:H24.
    + apply Qltb_lt in H24. repeat split; intros; auto.
      * exfalso. apply (Qlt_not_le _ _ H24). tauto.
      * exfalso. apply (Qlt_irrefl 8). apply Qlt_trans with yDiff; auto.
        apply Qlt_trans with (-8); auto. reflexivity.
      * exfalso. apply (Qlt_not_le _ _ H8). tauto.
    + apply Qltb_ge in H24. repeat split; intros; auto.
      * exfalso. now apply (Qlt_not_le 24 yDiff).
      * exfalso. apply (Qlt_irrefl 8). apply Qlt_trans with yDiff; auto.
        apply Qlt_trans with (-8); auto. reflexivity.
      * exfalso. apply (Qlt_not_le _ _ H8). tauto.
  - apply Qltb_ge in H8. destruct (Qltb yDiff (-8)) eqn:Hm.
    + apply Qltb_lt in Hm. repeat split; intros; auto.
      * exfalso. apply (Qlt_not_le 8 yDiff); auto.
        apply Qlt_trans with 24; auto. reflexivity.
      * exfalso. apply (Qlt_not_le 8 yDiff); tauto.
      * exfalso. apply (Qlt_not_le _ _ Hm). tauto.
    + apply Qltb_ge in Hm. repeat split; intros.
      * exfalso. apply (Qlt_not_le 8 yDiff); auto.
        apply Qlt_trans with 24; auto. reflexivity.
      * exfalso. apply (Qlt_not_le 8 yDiff); tauto.
      * exfalso. now apply (Qlt_not_le yDiff (-8)).
      * unfold inline_spacing. rewrite Hlast, Ea, Eb.
        destruct (last (ca :: ra)) as [lc|] eqn:L.
        -- exists lc, cb. repeat split.
        -- exfalso. revert L. clear.
           induction ra as [|x r IH] in ca |- *; [discriminate|]. apply IH.
Qed.

(** The scenarios of the layout rule: a drop of 30 gives a paragraph
    break, a drop of 15 a line break, a drop of 5 a space between Latin
    runs and nothing between CJK runs, and a rise of 20 a space. *)
Example gap_examples :
  extractPageText [at_y (js "A") 700; at_y (js "B") 670]
  = js "A" ++ [NL; NL] ++ js "B"
  /\ extractPageText [at_y (js "A") 700; at_y (js "B") 685]
     = js "A" ++ [NL] ++ js "B"
  /\ extractPageText [at_y (js "Hello") 700; at_y (js "World") 695]
     = js "Hello World"
  /\ extractPageText [at_y [20013%Z] 700; at_y [25991%Z] 695]
     = [20013%Z; 25991%Z]
  /\ extractPageText [at_y (js "A") 700; at_y (js "B") 720] = js "A B".
Proof. repeat split. Qed.

(** C3 fails where the baseline of the previous run is [-9999], the value
    that marks "no run yet on this page": the run "A" at [-9999] followed
    by the run "B" at [-10100] has [yDiff = 101 > 24], and the page text is
    "AB" with no paragraph break. *)
Theorem marker_baseline_loses_break :
  let a := at_y (js "A") (-9999) in
  let b := at_y (js "B") (-10100) in
  24 < currentY_of a - currentY_of b /\
  extractPageText [a; b] = js "AB".
Proof. split; reflexivity. Qed.

End PdfFacts.

(** ** Properties of the EPUB extractor *)

Module EpubFacts.
Import Epub EpubSpec Demo.

Section Spine.
Context `{Platform}.
Variable zip : gmap (list Z) (list Z).
Variable opfDir : jsstring.

Lemma spine_step_resolve (items : list Item) (acc : jsstring)
  (idref : option jsstring) :
  (forall href, href_of items idref = Some href ->
                is_Some (decodeURIComponent (opfDir ++ href))) ->
  spine_step zip (Some items) opfDir acc idref
  = Ok (acc ++ chapters_text (omap (resolve zip opfDir items) [idref])).
Proof.
  intros Hd. unfold spine_step, resolve, href_of, chapters_text in *.
  simpl.
  destruct (present idref) as [id|]; simpl in *; [|now rewrite app_nil_r].
  destruct (present (find_item items id ≫= item_href)) as [href|];
    simpl in *; [|now rewrite app_nil_r].
  destruct (Hd href eq_refl) as [key Hk]. rewrite Hk. simpl.
  destruct (present (zip !! key)) as [doc|]; simpl; now rewrite ?app_nil_r.
Qed.

Lemma chapters_text_app (a b : list jsstring) :
  chapters_text (a ++ b) = chapters_text a ++ chapters_text b.
Proof. unfold chapters_text. now rewrite fmap_app, concat_app. Qed.

(** The loop appends the documents of the spine in spine order. *)
Lemma spine_loop_text (items : list Item)
  (itemrefs : list (option jsstring)) (acc : jsstring) :
  hrefs_decode opfDir items itemrefs ->
  spine_loop zip (Some items) opfDir itemrefs acc
  = Ok (acc ++ chapters_text (omap (resolve zip opfDir items) itemrefs)).
Proof.
  revert acc. induction itemrefs as [|idref rest IH]; intros acc Hd.
  - simpl. unfold chapters_text. simpl. now rewrite app_nil_r.
  - simpl spine_loop. rewrite spine_step_resolve.
    + rewrite IH.
      * rewrite <- app_assoc, <- chapters_text_app.
        change (idref :: rest) with ([idref] ++ rest).
        now rewrite omap_app.
      * intros i h Hi. apply Hd. now right.
    + intros h. apply Hd. now left.
Qed.

Lemma find_item_perm (items items' : list Item) (id : jsstring) :
  items ≡ₚ items' -> NoDup (omap item_id items) ->
  find_item items id = find_item items' id.
Proof.
  unfold find_item.
  induction 1 as [|x l l' _ IH|x y l|l l' l'' H1 IH1 H2 IH2]; intros Hn.
  - reflexivity.
  - simpl. destruct (bool_decide _); [reflexivity|]. apply IH.
    simpl in Hn. destruct (item_id x); [now inversion Hn|exact Hn].
  - simpl. destruct (bool_decide_reflect (item_id y = Some id)) as [Ey|];
      destruct (bool_decide_reflect (item_id x = Some id)) as [Ex|];
      try reflexivity.
    exfalso. simpl in Hn. rewrite Ex, Ey in Hn.
    inversion Hn as [|? ? Hin _]. apply Hin. now left.
  - rewrite IH1 by exact Hn. apply IH2.
    eapply NoDup_Permutation_proper; [|exact Hn].
    symmetry. now apply omap_Permutation.
Qed.

Lemma resolve_perm (items items' : list Item) (idref : option jsstring) :
  items ≡ₚ items' -> NoDup (omap item_id items) ->
  resolve zip opfDir items' idref = resolve zip opfDir items idref.
Proof.
  intros Hp Hn. unfold resolve, href_of.
  destruct (present idref) as [id|]; simpl; [|reflexivity].
  now rewrite (find_item_perm _ _ id Hp Hn).
Qed.

End Spine.

(** C6, as stated, fails on the record of a skipped item: in the demo
    book the spine item [x] has no archive entry; extraction succeeds with
    the two other chapters, and nothing is recorded: the function yields
    the text alone and the console stays empty. *)
Lemma skipped_item_not_recorded :
  @resolve demo_platform demo_zip [] demo_items (Some (js "x")) = None /\
  @extractTextFromEpub demo_platform demo_file
  = (Ok (js "One" ++ [NL; NL] ++ js "Two" ++ [NL; NL]), []).
Proof. split; vm_compute; reflexivity. Qed.

(** C6 (amended): when the container and the package document parse,
    with a manifest and a spine, and no path is a malformed URI, the
    extracted text is the stripped text of the spine's content documents
    in spine order, each followed by two newlines (extraction fails as
    empty when that text is blank).  A spine item with no [idref], no
    manifest item of that id, no [href], or no non-empty archive entry
    contributes nothing and is not recorded anywhere.  With unique
    manifest ids the text does not depend on the order of the manifest. *)
Theorem spine_order_text `{Platform}
  (file : File) (zip : gmap (list Z) (list Z))
  (container opfPath opfContent : jsstring)
  (items : list Item) (itemrefs : list (option jsstring)) :
  loadAsync file = Some zip ->
  present (zip !! js "META-INF/container.xml") = Some container ->
  present (rootfile_full_path container) = Some opfPath ->
  present (zip !! opfPath) = Some opfContent ->
  parse_opf opfContent = mkOpf (Some items) (Some itemrefs) ->
  hrefs_decode (opfDir_of opfPath) items itemrefs ->
  let text items :=
    chapters_text (omap (resolve zip (opfDir_of opfPath) items) itemrefs) in
  extractTextFromEpub file
  = (if truthy (trim (text items))
     then (Ok (text items), [])
     else (Err (EpubFailed EmptyContent), [ConsoleError EmptyContent]))
  /\ forall items', items ≡ₚ items' -> NoDup (omap item_id items) ->
                    text items' = text items.
Proof.
  intros Hz Hc Hp Ho Hd Hu text. split.
  - unfold extractTextFromEpub, extract_body.
    rewrite Hz, Hc, Hp, Ho, Hd. simpl.
    rewrite (spine_loop_text _ _ _ _ _ Hu). simpl. fold (text items).
    now destruct (truthy (trim (text items))).
  - intros items' Hperm Hn. unfold text. f_equal.
    clear Hu Hd text.
    pose proof (fun r => resolve_perm zip (opfDir_of opfPath) _ _ r Hperm Hn)
      as E.
    set (f := resolve zip (opfDir_of opfPath) items') in *.
    set (g := resolve zip (opfDir_of opfPath) items) in *.
    clearbody f g.
    induction itemrefs as [|r rest IH]; [reflexivity|].
    simpl. unfold omap in IH. now rewrite IH, E.
Qed.

Lemma spine_order_text_witness :
  @extractTextFromEpub demo_platform demo_file
  = (Ok (js "One" ++ [NL; NL] ++ js "Two" ++ [NL; NL]), [])
  /\ @chapters_text demo_platform
       (omap (@resolve demo_platform demo_zip [] (rev demo_items)) demo_spine)
     = js "One" ++ [NL; NL] ++ js "Two" ++ [NL; NL].
Proof.
  assert (Hu : @hrefs_decode demo_platform [] demo_items demo_spine).
  { intros idref href _ _. eexists. reflexivity. }
  pose proof (@spine_order_text demo_platform demo_file demo_zip
                (js "<container/>") (js "c.opf") (js "<package/>")
                demo_items demo_spine
                eq_refl eq_refl eq_refl eq_refl eq_refl Hu) as [H1 H2].
  split.
  - exact H1.
  - apply (H2 (rev demo_items)).
    + apply Permutation_rev.
    + apply (bool_decide_unpack _). vm_compute. exact I.
Defined.


End EpubFacts.

(** ** Properties of the MOBI extractor *)

Module MobiFacts.
Import Mobi.

(** What the extractor does in each of its three cases: readable runs are
    joined, stripped of tags and prefixed by the notice; with no run the
    stripped ASCII text is returned when it has more than 100 characters,
    and extraction fails otherwise. *)
Lemma extract_cases `{TextDecoder} (file : File) :
  let rawText := decode_utf8 (file_bytes file) in
  (matches rawText <> [] ->
   extractTextFromMobi file
   = (Ok (notice ++ strip_tags (join_nl (matches rawText))), []))
  /\ (matches rawText = [] ->
      (length (ascii_only rawText) <= 100)%nat ->
      extractTextFromMobi file = (Err MobiFailed, [ConsoleError CannotExtract]))
  /\ (matches rawText = [] ->
      (100 < length (ascii_only rawText))%nat ->
      extractTextFromMobi file = (Ok (ascii_only rawText), [])).
Proof.
  intros rawText. unfold extractTextFromMobi, extract_body. fold rawText.
  repeat split.
  - destruct (matches rawText); [congruence|reflexivity].
  - intros -> Hl.
    destruct (Nat.ltb_spec 100 (length (ascii_only rawText))); [lia|].
    reflexivity.
  - intros -> Hl.
    destruct (Nat.ltb_spec 100 (length (ascii_only rawText))); [|lia].
    reflexivity.
Qed.

(** "Hello World" twice with a null byte in between: two readable runs,
    joined by a newline and prefixed by the notice. *)
Example hello_world_example :
  let file := mkFile (js "h.mobi") [] 23
                (list_byte_of_string "Hello World" ++ [Byte.x00]
                 ++ list_byte_of_string "Hello World") in
  @extractTextFromMobi Demo.demo_decoder file
  = (Ok (notice ++ js "Hello World" ++ [NL] ++ js "Hello World"), []).
Proof. vm_compute. reflexivity. Qed.

(** C8 fails on the fallback path: a buffer of 101 bytes "#" has no
    readable run, its stripped ASCII text has 101 characters, and the
    extractor returns that text as it is, without the notice that the
    other successful path prepends. *)
Theorem fallback_has_no_notice :
  let file := mkFile (js "x.mobi") [] 101 (repeat Byte.x23 101) in
  matches (@decode_utf8 Demo.demo_decoder (file_bytes file)) = [] /\
  @extractTextFromMobi Demo.demo_decoder file = (Ok (repeat 35%Z 101), []) /\
  startsWith notice (repeat 35%Z 101) = false.
Proof. repeat split; vm_compute; reflexivity. Qed.

End MobiFacts.

(** ** Properties of the library view *)

Module LibraryFacts.
Import Library Demo.

(** C5: the buffer is decoded as permissive UTF-8 and that text is
    returned, with no attempt at another decoding, unless the replacement
    characters are present and more than 1% of the decoded length; then
    the GB18030 decoding of the same buffer is returned, or the UTF-8 text
    when that decoding fails.  In particular a text with no replacement
    character is returned with no attempt. *)
Theorem encoding_resolution `{TextDecoder} (file : File) :
  let utf8Text := decode_utf8 (file_bytes file) in
  let n := replacementCount utf8Text in
  ((n = 0 \/ 100 * n <= length utf8Text)%nat ->
   readTextFile file = (utf8Text, []))
  /\ ((0 < n)%nat -> (length utf8Text < 100 * n)%nat ->
      forall gbkText, decode_gb18030 (file_bytes file) = Some gbkText ->
      readTextFile file = (gbkText, [AttemptGb18030]))
  /\ ((0 < n)%nat -> (length utf8Text < 100 * n)%nat ->
      decode_gb18030 (file_bytes file) = None ->
      readTextFile file = (utf8Text, [AttemptGb18030; Gb18030Failed])).
Proof.
  intros utf8Text n. unfold readTextFile, looks_misdecoded.
  fold utf8Text. fold n. repeat split.
  - intros Hc. destruct (Nat.ltb_spec 0 n); cbn [andb]; [|reflexivity].
    destruct (Nat.ltb_spec (length utf8Text) (100 * n)); [lia|reflexivity].
  - intros Hn Hl gbkText Hg.
    rewrite (proj2 (Nat.ltb_lt _ _) Hn), (proj2 (Nat.ltb_lt _ _) Hl).
    cbn [andb]. now rewrite Hg.
  - intros Hn Hl Hg.
    rewrite (proj2 (Nat.ltb_lt _ _) Hn), (proj2 (Nat.ltb_lt _ _) Hl).
    cbn [andb]. now rewrite Hg.
Qed.

Lemma encoding_resolution_witness :
  @readTextFile demo_decoder clean_file = (js "hi", [])
  /\ @readTextFile demo_decoder gbk_file = ([31532%Z], [AttemptGb18030])
  /\ @readTextFile demo_decoder broken_file
     = ([65533%Z], [AttemptGb18030; Gb18030Failed]).
Proof.
  split; [|split].
  - apply (proj1 (@encoding_resolution demo_decoder clean_file)).
    left. reflexivity.
  - apply (proj1 (proj2 (@encoding_resolution demo_decoder gbk_file)));
      [vm_compute; lia|vm_compute; lia|reflexivity].
  - apply (proj2 (proj2 (@encoding_resolution demo_decoder broken_file)));
      [vm_compute; lia|vm_compute; lia|reflexivity].
Defined.

Section IngestFacts.
Context `{TextDecoder} `{Epub.Platform} {pdf_error : Type}.
Variable extractTextFromPdf : File -> result pdf_error jsstring.
Variable generateBookMetadata : jsstring -> Metadata.
Variable generateCoverImage :
  jsstring -> jsstring -> jsstring -> result unit (option jsstring).
Variable randomUUID : jsstring.
Variable now : Z.

Local Abbreviation ingest :=
  (processFile extractTextFromPdf generateBookMetadata generateCoverImage
     randomUUID now).

(** The book added by step 3 holds the text it was given. *)
Lemma add_book_content (text : jsstring) (fmt : format) (b : Book) :
  OnAddBook b ∈ add_book (pdf_error := pdf_error) generateBookMetadata
                  generateCoverImage randomUUID now text fmt ->
  content b = text.
Proof.
  unfold add_book.
  destruct (generateCoverImage _ _ _) as [[cover|]|[]]; simpl;
    rewrite ?elem_of_cons, elem_of_nil;
    intros Hb; repeat destruct Hb as [Hb|Hb]; try discriminate;
    try contradiction; now injection Hb as ->.
Qed.

(** The EPUB extractor never returns a blank text. *)
Lemma epub_text_not_blank (file : File) (text : jsstring) :
  fst (Epub.extractTextFromEpub file) = Ok text -> trim text <> [].
Proof.
  unfold Epub.extractTextFromEpub.
  destruct (Epub.extract_body file) as [t|e] eqn:E; simpl; [|discriminate].
  intros [= ->]. unfold Epub.extract_body in E.
  repeat case_match; simplify_eq.
  intros Ht. rewrite Ht in *. discriminate.
Qed.

(** Step 2 calls an extractor. *)
Lemma extract_call (file : File) r fmt call :
  extract extractTextFromPdf file = (r, fmt, call) ->
  is_extraction call = true.
Proof.
  unfold extract. repeat case_match; intros; simplify_eq; reflexivity.
Qed.

(** C7: whatever the format, a book is only added with a text that is not
    blank; when the extractor returns an empty or white-space-only text,
    ingestion fails with the empty-content error and adds no book; and the
    EPUB extractor itself never returns a blank text. *)
Theorem blank_text_is_rejected (file : File) :
  (forall b, OnAddBook b ∈ ingest file -> trim (content b) <> [])
  /\ (forall text fmt call,
        (file_size file <= MAX_FILE_SIZE)%Z ->
        extract extractTextFromPdf file = (Ok text, fmt, call) ->
        trim text = [] ->
        ingest file
        = [SetIsUploading true; call; UploadFailedLog EmptyContent;
           Alert (UploadFailed EmptyContent); SetIsUploading false])
  /\ (forall text, trim text = [] ->
                   fst (Epub.extractTextFromEpub file) <> Ok text).
Proof.
  split; [|split].
  - intros b. unfold processFile.
    destruct (MAX_FILE_SIZE <? file_size file)%Z.
    { rewrite elem_of_cons, elem_of_nil. intros [Hb|[]]. discriminate. }
    destruct (extract extractTextFromPdf file) as [[r fmt] call] eqn:E.
    apply extract_call in E.
    intros Hb. apply elem_of_app in Hb as [Hb|Hb].
    { rewrite !elem_of_cons, elem_of_nil in Hb.
      destruct Hb as [Hb|[Hb|[]]]; [discriminate|].
      now rewrite <- Hb in E. }
    apply elem_of_app in Hb as [Hb|Hb].
    2: { rewrite elem_of_cons, elem_of_nil in Hb.
         destruct Hb as [Hb|[]]. discriminate. }
    destruct r as [text|e].
    + destruct (truthy (trim text)) eqn:T.
      * apply add_book_content in Hb. rewrite Hb.
        intros Et. now rewrite Et in T.
      * rewrite !elem_of_cons, elem_of_nil in Hb.
        destruct Hb as [Hb|[Hb|[]]]; discriminate.
    + rewrite !elem_of_cons, elem_of_nil in Hb.
      destruct Hb as [Hb|[Hb|[]]]; discriminate.
  - intros text fmt call Hs He Ht. unfold processFile.
    destruct (Z.ltb_spec MAX_FILE_SIZE (file_size file)); [lia|].
    now rewrite He, Ht.
  - intros text Ht Hok. now apply epub_text_not_blank in Hok.
Qed.

(** C9: a file of more than 50 MiB is rejected with the alert that states
    its size, and that is all that happens: no extractor is called. *)
Theorem oversized_is_rejected (file : File) :
  (50 * 1024 * 1024 < file_size file)%Z ->
  ingest file = [Alert (FileTooLarge (file_size file))]
  /\ Forall (fun e => is_extraction e = false) (ingest file).
Proof.
  intros Hs. unfold processFile.
  destruct (Z.ltb_spec MAX_FILE_SIZE (file_size file)) as [_|Hle].
  - split; [reflexivity|]. repeat constructor.
  - unfold MAX_FILE_SIZE in Hle. lia.
Qed.

End IngestFacts.

Lemma blank_text_is_rejected_witness :
  trim (js "hi") <> []
  /\ demo_ingest blank_pdf
     = [SetIsUploading true; ExtractPdf; UploadFailedLog EmptyContent;
        Alert (UploadFailed EmptyContent); SetIsUploading false]
  /\ fst (@Epub.extractTextFromEpub demo_platform blank_pdf)
     <> Ok [].
Proof.
  pose proof (@blank_text_is_rejected demo_decoder demo_platform
                unit demo_pdf demo_metadata demo_cover (js "id") 0) as W.
  split; [|split].
  - apply (proj1 (W clean_file)
             (mkBook (js "id") (js "T") (js "A") (js "D") [] (js "hi") txt
                (placeholder_cover ++ js "T") 0 0)).
    apply (list_elem_of_lookup_2 _ 2%nat). reflexivity.
  - apply (proj1 (proj2 (W blank_pdf)) (js " ") pdf ExtractPdf);
      [vm_compute; discriminate|reflexivity|reflexivity].
  - apply (proj2 (proj2 (W blank_pdf)) []). reflexivity.
Defined.

Lemma oversized_is_rejected_witness :
  demo_ingest huge_file = [Alert (FileTooLarge 52428801)]
  /\ Forall (fun e => is_extraction e = false) (demo_ingest huge_file).
Proof.
  apply (@oversized_is_rejected demo_decoder demo_platform unit
           demo_pdf demo_metadata demo_cover (js "id") 0 huge_file).
  vm_compute. reflexivity.
Defined.

End LibraryFacts.

(** ** More properties of the paginator *)

Module ReaderMore.
Import Reader ReaderInv ReaderSpec ReaderFacts.

Section Toc.
Variable budget : nat.

Lemma run_toc_shown (ls : list jsstring) (st : state) :
  (fun e => (title e, level e)) <$> tempToc (run budget ls st)
  = ((fun e => (title e, level e)) <$> tempToc st)
    ++ (shown <$> List.filter is_heading ls).
Proof.
  revert st. induction ls as [|l ls IH]; intros st.
  - simpl. now rewrite app_nil_r.
  - change (run budget (l :: ls) st) with (run budget ls (step budget st l)).
    rewrite IH, step_toc, fmap_app, <- app_assoc. f_equal.
    simpl. unfold is_heading at 2.
    destruct (headerRegex_test (trim l)); reflexivity.
Qed.

Lemma nondecreasing_snoc (l : list nat) (x : nat) :
  nondecreasing l -> Forall (fun a => a <= x)%nat l ->
  nondecreasing (l ++ [x]).
Proof.
  intros Hl Hx i j a b Hij Ha Hb.
  destruct (decide (j < length l)%nat) as [Hj|Hj].
  - rewrite lookup_app_l in Ha, Hb by lia. eauto.
  - rewrite lookup_app_r in Hb by lia.
    destruct (j - length l)%nat eqn:E; [|destruct n; discriminate].
    injection Hb as <-.
    destruct (decide (i < length l)%nat) as [Hi|Hi].
    + rewrite lookup_app_l in Ha by lia.
      rewrite Forall_lookup in Hx. eauto.
    + rewrite lookup_app_r in Ha by lia.
      destruct (i - length l)%nat eqn:E'; [|destruct n; discriminate].
      injection Ha as <-. lia.
Qed.

Lemma near_boundary_mono (a b : nat) :
  (a <= b)%nat -> near_boundary budget a = true ->
  near_boundary budget b = true.
Proof.
  unfold near_boundary. rewrite !Nat.ltb_lt. lia.
Qed.

Lemma ordered_step (st : state) (l : jsstring) :
  ordered budget st -> ordered budget (step budget st l).
Proof.
  intros [Hs Hf].
  assert (Hnew : Forall (fun a => a <= pageIndex (toc_entry budget st l))%nat
                   (pageIndex <$> tempToc st)).
  { rewrite Forall_fmap. eapply Forall_impl; [exact Hf|].
    intros e He. simpl in *. destruct He as [He|[He Hn]].
    - destruct (near_boundary _ _); lia.
    - rewrite Hn. lia. }
  split.
  - rewrite step_toc, fmap_app.
    destruct (headerRegex_test (trim l)); simpl.
    + now apply nondecreasing_snoc.
    + now rewrite app_nil_r.
  - rewrite step_toc. apply Forall_app. split.
    + eapply Forall_impl; [exact Hf|]. intros e He. simpl in He.
      unfold step. destruct (Nat.ltb_spec budget (currentLength st + length l));
        simpl.
      * left. lia.
      * destruct He as [He|[He Hn]]; [now left|right]. split; [exact He|].
        eapply near_boundary_mono; [|exact Hn]. lia.
    + destruct (headerRegex_test (trim l)); [|constructor].
      constructor; [|constructor].
      unfold toc_entry, step. simpl.
      destruct (Nat.ltb_spec budget (currentLength st + length l)); simpl.
      * left. destruct (near_boundary _ _); lia.
      * destruct (near_boundary budget (currentLength st)) eqn:Hn;
          [right|left; lia].
        split; [reflexivity|].
        eapply near_boundary_mono; [|exact Hn]. lia.
Qed.

Lemma ordered_run (ls : list jsstring) : ordered budget (run budget ls init).
Proof.
  apply run_invariant; [apply ordered_step|].
  split; [|constructor]. intros i j a b _ Ha. discriminate.
Qed.

End Toc.

(** X1: The table of contents lists the heading lines of the text, in their
    order, with the title and the level shown for each, whatever the
    budget. *)
Theorem toc_lists_headings (budget : nat) (text : jsstring) :
  (fun e => (title e, level e)) <$> snd (paginate budget text)
  = shown <$> List.filter is_heading (split_lines text).
Proof.
  unfold paginate. change (snd (finish ?s)) with (tempToc s).
  now rewrite run_toc_shown.
Qed.

(** X2: The page indices of the table of contents never go down from one
    entry to the next. *)
Theorem toc_pages_nondecreasing (budget : nat) (text : jsstring) :
  nondecreasing (pageIndex <$> snd (paginate budget text)).
Proof.
  unfold paginate. change (snd (finish ?s)) with (tempToc s).
  apply ordered_run.
Qed.

Section Bounds.

Lemma take_drop_while (p : Z -> bool) (s : jsstring) :
  s = take_while p s ++ drop_while p s.
Proof.
  induction s as [|c r IH]; [reflexivity|]. simpl.
  destruct (p c); [simpl; now rewrite <- IH|reflexivity].
Qed.

Lemma take_while_all (p : Z -> bool) (s : jsstring) :
  forallb p (take_while p s) = true.
Proof.
  induction s as [|c r IH]; [reflexivity|]. simpl.
  destruct (p c) eqn:E; [simpl; now rewrite E|reflexivity].
Qed.

(** What [trim] leaves at the end of a string that does not start with
    white space: the string is its trimmed form followed by white space. *)
Lemma rtrim_split (s : jsstring) :
  exists t, s = rev (drop_while is_ws (rev s)) ++ t /\ blank t = true.
Proof.
  exists (rev (take_while is_ws (rev s))). split.
  - rewrite <- rev_app_distr, <- take_drop_while. now rewrite rev_involutive.
  - unfold blank. rewrite forallb_forall. intros c Hc.
    apply in_rev in Hc.
    pose proof (take_while_all is_ws (rev s)) as Ha.
    rewrite forallb_forall in Ha. now apply Ha.
Qed.

Lemma take_while_app_stop (p : Z -> bool) (a t : jsstring) :
  drop_while p a <> [] -> take_while p (a ++ t) = take_while p a.
Proof.
  induction a as [|c r IH]; simpl; [congruence|].
  destruct (p c); [intros Hd; now rewrite IH|reflexivity].
Qed.

(** A heading line that starts with a hash has at most six of them. *)
Lemma heading_hashes (line : jsstring) :
  is_heading line = true -> startsWith [HASH] line = true ->
  (1 <= length (take_while is_hash line) <= 6)%nat.
Proof.
  intros Hh Hs. destruct line as [|c r]; [discriminate|].
  change (startsWith [HASH] (c :: r)) with ((HASH =? c) && true) in Hs.
  rewrite andb_true_r in Hs. apply Z.eqb_eq in Hs. subst c.
  unfold is_heading, trim in Hh.
  change (drop_while is_ws (HASH :: r)) with (HASH :: r) in Hh.
  destruct (rtrim_split (HASH :: r)) as (t & Et & Bt).
  set (a := rev (drop_while is_ws (rev (HASH :: r)))) in *.
  destruct a as [|c a']; [discriminate|].
  simpl in Et. injection Et as Ec Er. subst c.
  assert (Hatx : match_atx (HASH :: a') = true).
  { unfold headerRegex_test in Hh.
    destruct (match_atx (HASH :: a')); [reflexivity|].
    simpl in Hh. exfalso.
    destruct a' as [|? [|? [|? [|? [|? [|? [|? ?]]]]]]]; discriminate. }
  unfold match_atx in Hatx.
  assert (Hd : drop_while is_hash (HASH :: a') <> []).
  { destruct (drop_while is_hash (HASH :: a')); [|discriminate].
    now rewrite andb_false_r in Hatx. }
  change (HASH :: r) with ([HASH] ++ r). rewrite Er.
  change ([HASH] ++ a' ++ t) with ((HASH :: a') ++ t).
  rewrite (take_while_app_stop _ _ _ Hd).
  apply andb_true_iff in Hatx as [Hn _].
  apply andb_true_iff in Hn as [H1 H6].
  apply Nat.leb_le in H1, H6. lia.
Qed.

Lemma heading_level_bounds (line : jsstring) :
  is_heading line = true -> (1 <= heading_level line <= 6)%nat.
Proof.
  intros Hh. unfold heading_level.
  destruct (startsWith [HASH] line) eqn:Hs; [|lia].
  pose proof (heading_hashes line Hh Hs) as Hb.
  destruct (length (take_while is_hash line)); lia.
Qed.

Lemma display_title_length (t : jsstring) :
  (length (display_title t) <= 23)%nat.
Proof.
  unfold display_title.
  destruct (Nat.ltb_spec 20 (length t)); [|lia].
  rewrite length_app, length_take.
  change (length (js "...")) with 3%nat. lia.
Qed.

End Bounds.

(** X3: Every entry of the table of contents has a level from 1 to 6 and a
    title of at most 23 characters. *)
Theorem toc_entry_bounds (budget : nat) (text : jsstring) :
  Forall (fun e => (1 <= level e <= 6)%nat /\ (length (title e) <= 23)%nat)
         (snd (paginate budget text)).
Proof.
  assert (H : (fun e => (title e, level e)) <$> snd (paginate budget text)
              = shown <$> List.filter is_heading (split_lines text)).
  { unfold paginate. change (snd (finish ?s)) with (tempToc s).
    now rewrite run_toc_shown. }
  apply Forall_lookup. intros i e He.
  assert (Hi : ((fun e => (title e, level e)) <$> snd (paginate budget text))
               !! i = Some (title e, level e)).
  { now rewrite list_lookup_fmap, He. }
  rewrite H, list_lookup_fmap in Hi.
  destruct (List.filter is_heading (split_lines text) !! i) as [l|] eqn:El;
    [|discriminate].
  injection Hi as Ht Hl.
  apply list_elem_of_lookup_2, list_elem_of_In, filter_In in El as [_ Hh].
  rewrite <- Ht, <- Hl. split.
  - now apply heading_level_bounds.
  - apply display_title_length.
Qed.

Section Location.
Variable budget : nat.

Lemma holds_step (p : nat) (chunk : jsstring) (st : state) (l : jsstring) :
  holds p chunk st -> holds p chunk (step budget st l).
Proof.
  unfold holds, step. intros H.
  destruct (_ <? _)%nat; simpl.
  - left. destruct H as [(page & Hp & Hc)|(-> & Hc & _)].
    + exists page. split; [|exact Hc].
      apply lookup_app_l_Some. exact Hp.
    + exists (currentChunk st ++ l ++ [NL]). split.
      * rewrite lookup_app_r by lia. now rewrite Nat.sub_diag.
      * now apply prefix_app_r.
  - destruct H as [H|(-> & Hc & Hb)]; [now left|right].
    split; [reflexivity|]. split; [now apply prefix_app_r|].
    rewrite blank_app, Hb. reflexivity.
Qed.

Lemma holds_heading (st : state) (l : jsstring) :
  is_heading l = true ->
  holds (length (newPages st)) (currentChunk st ++ l ++ [NL])
    (step budget st l).
Proof.
  intros Hh. apply header_not_blank in Hh. unfold holds, step.
  destruct (_ <? _)%nat; simpl.
  - left. exists (currentChunk st ++ l ++ [NL]). split; [|reflexivity].
    rewrite lookup_app_r by lia. now rewrite Nat.sub_diag.
  - right. split; [reflexivity|]. split; [reflexivity|].
    rewrite !blank_app, Hh. now rewrite andb_false_r.
Qed.

Lemma holds_finish (p : nat) (chunk : jsstring) (st : state) :
  holds p chunk st ->
  exists page, fst (finish st) !! p = Some page /\ chunk `prefix_of` page.
Proof.
  unfold finish. simpl. rewrite truthy_trim.
  intros [(page & Hp & Hc)|(-> & Hc & Hb)].
  - exists page. split; [|exact Hc].
    destruct (negb (blank (currentChunk st))).
    + rewrite length_app. simpl length.
      replace (length (newPages st) + 1 =? 0)%nat with false
        by (symmetry; apply Nat.eqb_neq; lia).
      now apply lookup_app_l_Some.
    + destruct (newPages st); [discriminate|exact Hp].
  - rewrite Hb. simpl. exists (currentChunk st). split; [|exact Hc].
    rewrite length_app. simpl length.
    replace (length (newPages st) + 1 =? 0)%nat with false
      by (symmetry; apply Nat.eqb_neq; lia).
    rewrite lookup_app_r by lia. now rewrite Nat.sub_diag.
Qed.

End Location.

Lemma heading_held (budget : nat) (text : jsstring)
  (pre : list jsstring) (l : jsstring) (post : list jsstring) :
  split_lines text = pre ++ l :: post ->
  is_heading l = true ->
  exists page,
    fst (paginate budget text) !! curIndex (run budget pre init) = Some page
    /\ (currentChunk (run budget pre init) ++ l ++ [NL]) `prefix_of` page.
Proof.
  intros E Hh. unfold paginate. rewrite E.
  change (pre ++ l :: post) with (pre ++ [l] ++ post).
  rewrite !run_app. apply holds_finish.
  apply (run_invariant budget (holds _ _));
    [intros; now apply holds_step|].
  destruct (indexed_run budget pre) as [Hi _]. rewrite Hi.
  now apply holds_heading.
Qed.

(** X4: A heading line is on the page that is current when the line is seen:
    that page starts with the chunk accumulated so far followed by the
    line.  The entry of the heading points to that page, or, when the
    entry is pulled forward, to the page after the one that holds the
    heading. *)
Theorem heading_page (budget : nat) (text : jsstring)
  (pre : list jsstring) (l : jsstring) (post : list jsstring) :
  split_lines text = pre ++ l :: post ->
  is_heading l = true ->
  let st := run budget pre init in
  (exists page,
      fst (paginate budget text) !! curIndex st = Some page /\
      (currentChunk st ++ l ++ [NL]) `prefix_of` page)
  /\ pageIndex (toc_entry budget st l)
     = (curIndex st
        + (if near_boundary budget (currentLength st) then 1 else 0))%nat.
Proof.
  intros E Hh st. split.
  - now apply heading_held with post.
  - unfold toc_entry. simpl. destruct (near_boundary _ _); lia.
Qed.

Lemma heading_page_witness :
  (exists page,
      fst (paginate 1200 (js "# T")) !! 0%nat = Some page /\
      (js "# T" ++ [NL]) `prefix_of` page)
  /\ pageIndex (toc_entry 1200 init (js "# T")) = 0%nat.
Proof.
  exact (heading_page 1200 (js "# T") [] (js "# T") [] eq_refl eq_refl).
Defined.

Section Count.
Variable budget : nat.

Lemma line_total_app (a b : list jsstring) :
  line_total (a ++ b) = (line_total a + line_total b)%nat.
Proof.
  unfold line_total. now rewrite List.map_app, list_sum_app.
Qed.

Lemma join_lines_length (ls : list jsstring) :
  length (join_lines ls) = (line_total ls + length ls)%nat.
Proof.
  induction ls as [|l ls IH]; [reflexivity|].
  change (join_lines (l :: ls)) with ((l ++ [NL]) ++ join_lines ls).
  change (line_total (l :: ls)) with (length l + line_total ls)%nat.
  rewrite !length_app, IH. simpl. lia.
Qed.

Lemma groups_total (groups : list (list jsstring)) :
  Forall (full_group budget) groups ->
  (length groups * (budget + 1) <= line_total (concat groups))%nat.
Proof.
  induction 1 as [|g groups (ls & l & _ & _ & Hg) _ IH]; [simpl; lia|].
  simpl. rewrite line_total_app. lia.
Qed.

End Count.

(** X5: The pages are few: all but one of them hold more than the budget of
    text each, so that a text of [n] characters has at most
    [n / (budget + 1) + 1] pages. *)
Theorem page_count_bound (budget : nat) (text : jsstring) :
  ((length (fst (paginate budget text)) - 1) * (budget + 1)
   <= length text)%nat.
Proof.
  unfold paginate. rewrite finish_length.
  destruct (grouped_run budget (split_lines text))
    as (groups & cur & Hc & Hn & Hg & _).
  set (st := run budget (split_lines text) init) in *.
  apply groups_total in Hg.
  assert (Hl : (line_total (split_lines text) <= length text)%nat).
  { pose proof (join_lines_length (split_lines text)) as Hj.
    rewrite join_split, length_app in Hj. simpl in Hj.
    destruct (split_lines text) eqn:E; [|simpl in Hj; lia].
    destruct text as [|c r]; [discriminate|]. simpl in E.
    destruct (c =? NL); [discriminate|].
    destruct (split_lines r); discriminate. }
  rewrite Hc, line_total_app in Hl.
  rewrite Hn, length_fmap.
  assert (Hp : (Nat.max 1 (length groups
                           + (if blank (currentChunk st) then 0 else 1)) - 1
                <= length groups)%nat).
  { destruct (blank (currentChunk st)); lia. }
  etransitivity; [apply Nat.mul_le_mono_r, Hp|]. lia.
Qed.

End ReaderMore.

(** ** Properties of the reader view *)

Module ReaderViewFacts.
Import Reader ReaderView ReaderViewSpec ReaderSpec ReaderFacts.

(** X6: The night-mode button always flips night mode and touches nothing but
    the theme; from any theme, a second press ends on [light] or [dark],
    not on the theme it started from. *)
Theorem toggle_flips_night_mode (settings : ReaderSettings) :
  isNightMode (toggleNightMode settings) = negb (isNightMode settings)
  /\ fontSize (toggleNightMode settings) = fontSize settings
  /\ fontFamily (toggleNightMode settings) = fontFamily settings
  /\ lineHeight (toggleNightMode settings) = lineHeight settings
  /\ maxWidth (toggleNightMode settings) = maxWidth settings
  /\ theme (toggleNightMode (toggleNightMode settings))
     = (if isNightMode settings then dark else light).
Proof.
  destruct settings as [[] ? ? ? ?]; repeat split.
Qed.

Section Navigation.
Variable parseInt : jsstring -> option Z.

Lemma handlePageChange_on_a_page (n : Z) (s : state) :
  on_a_page s -> on_a_page (handlePageChange n s)
                 /\ pages (handlePageChange n s) = pages s.
Proof.
  unfold on_a_page, handlePageChange. intros H.
  destruct (Z.leb_spec 1 n), (Z.leb_spec n (Z.of_nat (length (pages s))));
    simpl; split; auto; lia.
Qed.

Lemma act_on_a_page (s : state) (a : action) :
  on_a_page s ->
  on_a_page (act parseInt s a) /\ pages (act parseInt s a) = pages s.
Proof.
  intros H. destruct a; simpl; try (split; [exact H|reflexivity]).
  - now apply handlePageChange_on_a_page.
  - now apply handlePageChange_on_a_page.
  - destruct (handlePageChange_on_a_page (Z.of_nat (pageIndex item) + 1) s H)
      as [H1 H2]. split; [exact H1|exact H2].
  - unfold handleJumpSubmit. destruct (parseInt (jumpInput s)) as [p|].
    + destruct (handlePageChange_on_a_page p s H) as [H1 H2].
      split; [exact H1|exact H2].
    + split; [exact H|reflexivity].
Qed.

Lemma acts_on_a_page (l : list action) (s : state) :
  on_a_page s ->
  on_a_page (acts parseInt s l) /\ pages (acts parseInt s l) = pages s.
Proof.
  revert s. induction l as [|a l IH]; intros s H; [now split|].
  simpl. destruct (act_on_a_page s a H) as [H1 H2].
  destruct (IH _ H1) as [H3 H4]. split; [exact H3|congruence].
Qed.

Lemma open_book_on_a_page (content : jsstring) :
  on_a_page (open_book content)
  /\ pages (open_book content) = fst (processContent content).
Proof.
  unfold open_book, on_a_page.
  pose proof (finish_length (run CHARS_PER_PAGE (split_lines content) init)).
  unfold processContent, paginate in *.
  destruct (finish _) as [ps tc]. simpl in *. split; [lia|reflexivity].
Qed.

Lemma reached_on_a_page (content : jsstring) (l : list action) :
  on_a_page (acts parseInt (open_book content) l)
  /\ pages (acts parseInt (open_book content) l)
     = fst (processContent content).
Proof.
  destruct (open_book_on_a_page content) as [H0 E0].
  destruct (acts_on_a_page l _ H0) as [H1 E1].
  split; [exact H1|congruence].
Qed.

End Navigation.

(** X7: Whatever the user does with the page buttons, the jump form and the
    table of contents, the page shown is a page of the book: the page
    number stays between 1 and the number of pages, which is at least 1,
    the pages stay those of [processContent], and the content shown is the
    page of that number. *)
Theorem page_shown_is_a_page (parseInt : jsstring -> option Z)
  (content : jsstring) (l : list action) :
  let s := acts parseInt (open_book content) l in
  1 <= currentPage s <= Z.of_nat (length (pages s))
  /\ pages s = fst (processContent content)
  /\ pages s !! Z.to_nat (currentPage s - 1) = Some (currentContent s).
Proof.
  intros s.
  destruct (reached_on_a_page parseInt content l) as [H1 E1].
  fold s in H1, E1.
  split; [exact H1|]. split; [exact E1|].
  unfold currentContent. unfold on_a_page in H1.
  destruct (Z.ltb_spec (currentPage s - 1) 0); [lia|].
  destruct (pages s !! Z.to_nat (currentPage s - 1)) eqn:E; [reflexivity|].
  apply lookup_ge_None in E. lia.
Qed.

(** X8: From any state of the view, a click on the entry of a heading that was
    not pulled forward shows the page that holds the heading, and closes
    the table of contents. *)
Theorem toc_click_shows_heading (parseInt : jsstring -> option Z)
  (text : jsstring) (pre : list jsstring) (l : jsstring)
  (post : list jsstring) (done : list action) :
  split_lines text = pre ++ l :: post ->
  is_heading l = true ->
  let st := run CHARS_PER_PAGE pre init in
  near_boundary CHARS_PER_PAGE (currentLength st) = false ->
  let s := act parseInt (acts parseInt (open_book text) done)
             (TocClick (toc_entry CHARS_PER_PAGE st l)) in
  currentPage s = Z.of_nat (curIndex st) + 1
  /\ (currentChunk st ++ l ++ [NL]) `prefix_of` currentContent s
  /\ showToc s = false.
Proof.
  intros E Hh st Hn s.
  destruct (ReaderMore.heading_held CHARS_PER_PAGE text pre l post E Hh)
    as (page & Hp & Hpre).
  fold st in Hp, Hpre.
  assert (Hi : pageIndex (toc_entry CHARS_PER_PAGE st l) = curIndex st).
  { unfold toc_entry. simpl. now rewrite Hn. }
  set (e := toc_entry CHARS_PER_PAGE st l) in *. clearbody e.
  destruct (reached_on_a_page parseInt text done) as (H1 & H2).
  set (s0 := acts parseInt (open_book text) done) in *.
  assert (Hlt : (curIndex st < length (pages s0))%nat).
  { rewrite H2. apply lookup_lt_Some with page. exact Hp. }
  assert (Es : s = mkState (pages s0) (toc s0) (Z.of_nat (curIndex st) + 1)
                     (jumpInput s0) false).
  { unfold s. simpl. unfold handlePageChange. rewrite Hi.
    destruct (Z.leb_spec 1 (Z.of_nat (curIndex st) + 1)); [|lia].
    destruct (Z.leb_spec (Z.of_nat (curIndex st) + 1)
                (Z.of_nat (length (pages s0)))); [|lia].
    reflexivity. }
  rewrite Es. simpl. split; [reflexivity|]. split; [|reflexivity].
  unfold currentContent. simpl.
  destruct (Z.ltb_spec (Z.of_nat (curIndex st) + 1 - 1) 0); [lia|].
  replace (Z.to_nat (Z.of_nat (curIndex st) + 1 - 1)) with (curIndex st)
    by lia.
  rewrite H2. unfold processContent. rewrite Hp. exact Hpre.
Qed.

Lemma toc_click_shows_heading_witness :
  let s := act (fun _ => None) (acts (fun _ => None) (open_book (js "# T"))
                                  [NextPage; SetShowToc true])
             (TocClick (toc_entry CHARS_PER_PAGE init (js "# T"))) in
  currentPage s = 1
  /\ (js "# T" ++ [NL]) `prefix_of` currentContent s
  /\ showToc s = false.
Proof.
  exact (toc_click_shows_heading (fun _ => None) (js "# T") [] (js "# T") []
           [NextPage; SetShowToc true] eq_refl eq_refl eq_refl).
Defined.

End ReaderViewFacts.

(** ** More properties of the PDF extractor *)

Module PdfMore.
Import Pdf PdfSpec PdfDocument.

Lemma fold_skipped (items : list TextItem) (st : state) :
  fold_left step items st = fold_left step (runs items) st.
Proof.
  revert st. induction items as [|it items IH]; intros st; [reflexivity|].
  unfold runs. simpl. destruct (skipped (str it)) eqn:E; simpl.
  - unfold step at 2. rewrite E. apply IH.
  - apply IH.
Qed.

(** X9: Empty and white-space-only runs leave no trace: the text of a page is
    the text of the page without them. *)
Theorem skipped_runs_leave_no_trace (items : list TextItem) :
  extractPageText items = extractPageText (runs items).
Proof.
  unfold extractPageText. now rewrite fold_skipped.
Qed.

Lemma separator_is_separator (yDiff : Q) (pageText s : jsstring) :
  is_separator (separator yDiff pageText s).
Proof.
  unfold separator, inline_spacing, is_separator.
  destruct (Qltb 8 yDiff); [destruct (Qltb 24 yDiff); auto|].
  destruct (Qltb yDiff (-8)); [auto|].
  destruct (last pageText); [|auto].
  destruct (_ && _); auto.
Qed.

Lemma fold_runs (items : list TextItem) (st : state) :
  Forall (fun item => skipped (str item) = false) items ->
  exists seps,
    length seps = length items /\
    Forall is_separator seps /\
    pageText (fold_left step items st)
    = pageText st ++ concat (zip_with app seps (str <$> items)) /\
    (Qeq_bool (lastY st) NO_LAST_Y = true ->
     forall sep, head seps = Some sep -> sep = []).
Proof.
  intros Hr. revert st. induction Hr as [|it items Hit _ IH]; intros st.
  - exists []. simpl. rewrite app_nil_r. repeat split; auto. discriminate.
  - set (sep := if negb (Qeq_bool (lastY st) NO_LAST_Y)
                then separator (lastY st - currentY_of it) (pageText st)
                       (str it)
                else []).
    assert (Estep : step st it
                    = mkState (pageText st ++ sep ++ str it) (currentY_of it)).
    { unfold step. now rewrite Hit. }
    simpl fold_left. rewrite Estep.
    destruct (IH (mkState (pageText st ++ sep ++ str it) (currentY_of it)))
      as (seps & Hl & Hs & Ht & _).
    exists (sep :: seps). repeat split.
    + simpl. now rewrite Hl.
    + constructor; [|exact Hs]. unfold sep.
      destruct (negb _); [apply separator_is_separator|now left].
    + rewrite Ht. simpl. now rewrite <- !app_assoc.
    + intros Hq s' [= <-]. unfold sep. now rewrite Hq.
Qed.

(** X10: No text of a run is lost or moved: the text of a page is its runs, in
    their order, each after one of four separators (nothing, a space, a
    newline, two newlines), and nothing comes before the first run. *)
Theorem page_text_is_runs_and_separators (items : list TextItem) :
  exists seps,
    length seps = length (runs items) /\
    Forall is_separator seps /\
    extractPageText items = concat (zip_with app seps (str <$> runs items))
    /\ (seps = [] \/ head seps = Some []).
Proof.
  unfold extractPageText. rewrite fold_skipped.
  destruct (fold_runs (runs items) init) as (seps & Hl & Hs & Ht & Hh).
  { unfold runs. apply Forall_forall. intros it Hin.
    apply list_elem_of_In, filter_In in Hin as [_ Hin].
    now apply negb_true_iff in Hin. }
  exists seps. repeat split; auto.
  destruct seps as [|sep seps']; [now left|right].
  simpl. f_equal. now apply Hh.
Qed.

Section Document.

Lemma read_pages_ext (d1 d2 : PDFDocumentProxy) (numbers : list nat)
  (acc : jsstring) :
  (forall i, i ∈ numbers -> textContent d1 i = textContent d2 i) ->
  read_pages d1 numbers acc = read_pages d2 numbers acc.
Proof.
  revert acc. induction numbers as [|i rest IH]; intros acc Hn;
    [reflexivity|].
  simpl. rewrite <- (Hn i (list_elem_of_here _ _)).
  destruct (textContent d1 i); [|reflexivity].
  apply IH. intros j Hj. apply Hn. now right.
Qed.

Lemma read_pages_ok (d : PDFDocumentProxy) (items : nat -> list TextItem)
  (numbers : list nat) (acc : jsstring) :
  (forall i, i ∈ numbers -> textContent d i = Ok (items i)) ->
  read_pages d numbers acc
  = Ok (acc ++ concat ((fun i => page_marker i ++ extractPageText (items i))
                         <$> numbers)).
Proof.
  revert acc. induction numbers as [|i rest IH]; intros acc Hn.
  - simpl. now rewrite app_nil_r.
  - cbn [read_pages]. rewrite (Hn i (list_elem_of_here _ _)). rewrite IH.
    + rewrite fmap_cons. cbn [concat]. now rewrite <- !app_assoc.
    + intros j Hj. apply Hn. now right.
Qed.

Lemma read_pages_err (d : PDFDocumentProxy) (items : nat -> list TextItem)
  (before after : list nat) (i : nat) (e : exception) (acc : jsstring) :
  (forall j, j ∈ before -> textContent d j = Ok (items j)) ->
  textContent d i = Err e ->
  read_pages d (before ++ i :: after) acc = Err e.
Proof.
  revert acc. induction before as [|j rest IH]; intros acc Hb He.
  - simpl. now rewrite He.
  - simpl. rewrite (Hb j (list_elem_of_here _ _)). apply IH; [|exact He].
    intros k Hk. apply Hb. now right.
Qed.

Lemma seq_split (a n i : nat) :
  (a <= i < a + n)%nat ->
  seq a n = seq a (i - a) ++ i :: seq (S i) (a + n - S i).
Proof.
  intros Hi.
  replace n with ((i - a) + S (a + n - S i))%nat at 1 by lia.
  rewrite seq_app. simpl.
  replace (a + (i - a))%nat with i by lia. reflexivity.
Qed.

End Document.

(** X11: Only the first 50 pages are read: two documents that have more than
    50 pages each (or as many pages as each other) and the same first 50
    pages give the same text or the same failure, whatever the later
    pages are, broken or not. *)
Theorem pages_beyond_50_are_not_read (d1 d2 : PDFDocumentProxy) :
  (numPages d1 = numPages d2 \/
   (50 < numPages d1 /\ 50 < numPages d2))%nat ->
  (forall i, (1 <= i <= 50)%nat -> textContent d1 i = textContent d2 i) ->
  document_text d1 = document_text d2.
Proof.
  intros Hn Hp. unfold document_text.
  assert (Hmin : Nat.min (numPages d1) 50 = Nat.min (numPages d2) 50)
    by lia.
  assert (Hlt : (50 <? numPages d1)%nat = (50 <? numPages d2)%nat).
  { destruct (Nat.ltb_spec 50 (numPages d1)),
             (Nat.ltb_spec 50 (numPages d2)); auto; lia. }
  rewrite <- Hmin, <- Hlt.
  rewrite (read_pages_ext d1 d2); [reflexivity|].
  intros i Hi. apply elem_of_seq in Hi. apply Hp. lia.
Qed.

Lemma pages_beyond_50_are_not_read_witness :
  document_text (DemoMore.one_run_pages 51 true)
  = document_text (DemoMore.one_run_pages 60 false).
Proof.
  apply pages_beyond_50_are_not_read.
  - right. simpl. lia.
  - intros i Hi. simpl.
    destruct (Nat.ltb_spec 50 i); [lia|reflexivity].
Defined.

Lemma document_text_ok (d : PDFDocumentProxy)
  (items : nat -> list TextItem) :
  (forall i, (1 <= i <= Nat.min (numPages d) 50)%nat ->
             textContent d i = Ok (items i)) ->
  document_text d
  = Ok (concat ((fun i => page_marker i ++ extractPageText (items i))
                  <$> seq 1 (Nat.min (numPages d) 50))
        ++ (if (50 <? numPages d)%nat then truncation_notice else [])).
Proof.
  intros Hp. unfold document_text.
  rewrite (read_pages_ok d items).
  - simpl. destruct (50 <? numPages d)%nat; [reflexivity|].
    now rewrite app_nil_r.
  - intros i Hi. apply elem_of_seq in Hi. apply Hp. lia.
Qed.

(** X12: The text of a document is all or nothing.  When the pages read (the
    first 50 at most) all yield their items, the text is, for each of them
    in order, its marker followed by its page text, and then the notice if
    the document has more than 50 pages.  When one of them throws, after
    pages that read, the extraction throws the same, and no text is
    returned. *)
Theorem document_text_all_or_nothing (d : PDFDocumentProxy)
  (items : nat -> list TextItem) :
  let read := Nat.min (numPages d) 50 in
  ((forall i, (1 <= i <= read)%nat -> textContent d i = Ok (items i)) ->
   document_text d
   = Ok (concat ((fun i => page_marker i ++ extractPageText (items i))
                   <$> seq 1 read)
         ++ (if (50 <? numPages d)%nat then truncation_notice else [])))
  /\ (forall i e,
        (1 <= i <= read)%nat ->
        (forall j, (1 <= j < i)%nat -> textContent d j = Ok (items j)) ->
        textContent d i = Err e ->
        document_text d = Err e).
Proof.
  intros read. split.
  - apply document_text_ok.
  - intros i e Hi Hb He. unfold document_text. fold read.
    rewrite (seq_split 1 read i) by lia.
    rewrite (read_pages_err d items _ _ i e); [reflexivity| |exact He].
    intros j Hj. apply elem_of_seq in Hj. apply Hb. lia.
Qed.

Lemma document_text_all_or_nothing_witness :
  document_text DemoMore.scanned = Ok (page_marker 1 ++ [])
  /\ document_text (DemoMore.one_run_pages 60 true)
     = Ok (concat ((fun i => page_marker i ++ js "A") <$> seq 1 50)
           ++ truncation_notice)
  /\ document_text DemoMore.broken_first
     = Err (mkException (js "Error") (js "broken")).
Proof.
  split; [|split].
  - apply (proj1 (document_text_all_or_nothing DemoMore.scanned
                    (fun _ => []))).
    reflexivity.
  - apply (proj1 (document_text_all_or_nothing
                    (DemoMore.one_run_pages 60 true)
                    (fun _ => [at_y (js "A") 700]))).
    intros i Hi. simpl in *. destruct (Nat.ltb_spec 50 i); [lia|reflexivity].
  - apply (proj2 (document_text_all_or_nothing DemoMore.broken_first
                    (fun _ => [])) 1%nat).
    + simpl. lia.
    + intros j Hj. lia.
    + reflexivity.
Defined.

End PdfMore.

(** ** More properties of the library view *)

Module LibraryMore.
Import Library LibraryFacts.

Section Outcome.
Context `{TextDecoder} `{Epub.Platform} {pdf_error : Type}.
Variable extractTextFromPdf : File -> result pdf_error jsstring.
Variable generateBookMetadata : jsstring -> Metadata.
Variable generateCoverImage :
  jsstring -> jsstring -> jsstring -> result unit (option jsstring).
Variable randomUUID : jsstring.
Variable now : Z.

(** Step 3 adds one book, which holds the whole text, with no progress;
    before it, the only thing written is the warning that the cover was
    skipped. *)
Lemma add_book_shape (text : jsstring) (fmt : format) :
  exists log b,
    add_book (pdf_error := pdf_error) generateBookMetadata
      generateCoverImage randomUUID now text fmt = log ++ [OnAddBook b]
    /\ (log = [] \/ log = [CoverSkippedLog])
    /\ content b = text /\ book_format b = fmt /\ progress b = 0
    /\ id b = randomUUID /\ addedAt b = now
    /\ title b = meta_title (generateBookMetadata (substring0 3000 text)).
Proof.
  unfold add_book.
  destruct (generateCoverImage _ _ _) as [[cover|]|[]];
    eexists _, _; (split; [reflexivity|]); simpl; auto 10.
Qed.

(** X13: Every ingestion of a file within the size limit calls one extractor,
    then either adds one book, whose text is not blank, or fails with one
    logged alert, never both; and it ends by clearing the uploading flag
    that it set at first. *)
Theorem ingestion_outcome (file : File) :
  (file_size file <= MAX_FILE_SIZE)%Z ->
  exists call,
    is_extraction call = true /\
    ((exists log b,
         processFile extractTextFromPdf generateBookMetadata
           generateCoverImage randomUUID now file
         = [SetIsUploading true; call] ++ log
           ++ [OnAddBook b; SetIsUploading false]
         /\ (log = [] \/ log = [CoverSkippedLog])
         /\ trim (content b) <> [] /\ progress b = 0)
     \/ (exists e,
           processFile extractTextFromPdf generateBookMetadata
             generateCoverImage randomUUID now file
           = [SetIsUploading true; call; UploadFailedLog e;
              Alert (UploadFailed e); SetIsUploading false])).
Proof.
  intros Hs. unfold processFile.
  destruct (Z.ltb_spec MAX_FILE_SIZE (file_size file)); [lia|].
  destruct (extract extractTextFromPdf file) as [[r fmt] call] eqn:E.
  exists call. split; [now apply extract_call in E|].
  destruct r as [text|e]; [|right; now exists e].
  destruct (truthy (trim text)) eqn:T; [|right; now exists EmptyContent].
  left.
  destruct (add_book_shape text fmt)
    as (log & b & -> & Hl & Hc & _ & Hp & _).
  exists log, b. rewrite <- app_assoc. simpl. repeat split; auto.
  rewrite Hc. intros Et. now rewrite Et in T.
Qed.

End Outcome.

Lemma ingestion_outcome_witness :
  exists call,
    is_extraction call = true /\
    ((exists log b,
         Demo.demo_ingest Demo.clean_file
         = [SetIsUploading true; call] ++ log
           ++ [OnAddBook b; SetIsUploading false]
         /\ (log = [] \/ log = [CoverSkippedLog])
         /\ trim (content b) <> [] /\ progress b = 0)
     \/ (exists e,
           Demo.demo_ingest Demo.clean_file
           = [SetIsUploading true; call; UploadFailedLog e;
              Alert (UploadFailed e); SetIsUploading false])).
Proof.
  apply (@ingestion_outcome Demo.demo_decoder Demo.demo_platform unit).
  vm_compute. discriminate.
Defined.

End LibraryMore.

(** ** Properties of the library view with its services *)

Module WiredFacts.
Import Library LibraryFacts LibraryMore PdfDocument Ingest.

Lemma endsWith_mobi_only (s : jsstring) :
  endsWith (js ".mobi") s = true ->
  endsWith (js ".pdf") s = false /\ endsWith (js ".epub") s = false.
Proof.
  unfold endsWith. destruct (rev s) as [|c r]; [discriminate|].
  change (rev (js ".mobi")) with (105 :: js "bom.").
  change (rev (js ".pdf")) with (102 :: js "dp.").
  change (rev (js ".epub")) with (98 :: js "upe.").
  cbn [startsWith].
  destruct (Z.eqb_spec 105 c) as [<-|]; [|discriminate]. now split.
Qed.

Lemma marker_not_blank (i : nat) (rest : jsstring) :
  blank (page_marker i ++ rest) = false.
Proof.
  unfold page_marker. rewrite <- !app_assoc.
  change ([NL; NL] ++ utf16 "--- 第 " ++ ?x)
    with (NL :: NL :: 45 :: (45 :: 45 :: 32 :: 31532 :: 32 :: x)).
  reflexivity.
Qed.

Section Wired.
Context `{TextDecoder} `{Epub.Platform} `{PdfJs} `{Gemini.GenAI}.
Variable generateCoverImage :
  jsstring -> jsstring -> jsstring -> result unit (option jsstring).
Variable randomUUID : jsstring.
Variable now : Z.



End Wired.



End WiredFacts.

(** ** Properties of the language model service *)

Module GeminiFacts.
Import Library Gemini.

(** X16: The metadata of a book depends on its first 2000 characters only:
    the 3000 that the library view passes are cut again. *)
Theorem metadata_reads_2000_characters `{GenAI} (text1 text2 : jsstring) :
  take 2000 text1 = take 2000 text2 ->
  generateBookMetadata (substring0 3000 text1)
  = generateBookMetadata (substring0 3000 text2).
Proof.
  intros E. unfold generateBookMetadata, metadata_prompt, substring0.
  rewrite !take_take.
  replace (2000 `min` 3000)%nat with 2000%nat by reflexivity.
  now rewrite E.
Qed.

Lemma metadata_reads_2000_characters_witness :
  @generateBookMetadata DemoMore.echo_genai
    (substring0 3000 (repeat 97 2000 ++ js "x"))
  = @generateBookMetadata DemoMore.echo_genai
      (substring0 3000 (repeat 97 2000 ++ js "y")).
Proof.
  apply (@metadata_reads_2000_characters DemoMore.echo_genai).
  vm_compute. reflexivity.
Defined.

(** X17: The prompt of a conversion is the instruction, a rule, and at most
    15000 characters of the book: the whole content when it is that
    short, else its first 15000 characters followed by the mark that the
    text was cut. *)
Theorem prompt_sends_at_most_15000_characters (content : jsstring)
  (task : taskType) (targetLanguage : option jsstring) :
  exists sent mark,
    fullPrompt content task targetLanguage
    = instruction task targetLanguage ++ [NL; NL] ++ js "---" ++ [NL; NL]
      ++ sent ++ mark
    /\ sent `prefix_of` content
    /\ (length sent <= CONTENT_LIMIT)%nat
    /\ ((sent = content /\ mark = []) \/
        ((CONTENT_LIMIT < length content)%nat /\
         length sent = CONTENT_LIMIT /\ mark = cut_mark)).
Proof.
  unfold fullPrompt.
  exists (take CONTENT_LIMIT content).
  destruct (Nat.ltb_spec CONTENT_LIMIT (length content)) as [Hl|Hl].
  - exists cut_mark. split; [reflexivity|]. split; [apply prefix_take|].
    rewrite length_take. split; [lia|]. right. repeat split; lia.
  - exists []. split; [reflexivity|]. split; [apply prefix_take|].
    rewrite length_take. split; [lia|]. left.
    split; [apply take_ge; lia|reflexivity].
Qed.

End GeminiFacts.

(** ** More properties of the EPUB extractor *)

Module EpubMore.
Import Epub EpubSpec EpubFacts.

(** X18: The base directory of the package document is the path up to its last
    slash, slash included: the path is that directory followed by a name
    with no slash, and the directory is empty or ends with a slash. *)
Theorem opfDir_is_the_directory (opfPath : jsstring) :
  exists base,
    opfPath = opfDir_of opfPath ++ base
    /\ (SLASH ∉ base)
    /\ (opfDir_of opfPath = [] \/ last (opfDir_of opfPath) = Some SLASH).
Proof.
  unfold opfDir_of.
  set (p := fun c => negb (c =? SLASH)).
  exists (rev (take_while p (rev opfPath))). split; [|split].
  - rewrite <- rev_app_distr, <- ReaderMore.take_drop_while.
    now rewrite rev_involutive.
  - intros Hin. apply list_elem_of_In, in_rev in Hin.
    pose proof (ReaderMore.take_while_all p (rev opfPath)) as Ha.
    rewrite forallb_forall in Ha. specialize (Ha _ Hin).
    unfold p in Ha. now rewrite Z.eqb_refl in Ha.
  - destruct (drop_while p (rev opfPath)) as [|c r] eqn:E; [now left|].
    right. apply drop_while_head in E. unfold p in E.
    apply negb_false_iff, Z.eqb_eq in E. subst c.
    simpl. now rewrite last_snoc.
Qed.

Section Abort.
Context `{Platform}.

Lemma spine_loop_app zip manifest opfDir (a b : list (option jsstring))
  (acc : jsstring) :
  spine_loop zip manifest opfDir (a ++ b) acc
  = match spine_loop zip manifest opfDir a acc with
    | Ok fullText => spine_loop zip manifest opfDir b fullText
    | Err e => Err e
    end.
Proof.
  revert acc. induction a as [|x a IH]; intros acc; [reflexivity|].
  simpl. destruct (spine_step zip manifest opfDir acc x); [apply IH|].
  reflexivity.
Qed.

End Abort.

(** X19: One malformed path aborts the whole book: when the path of a spine
    item makes [decodeURIComponent] throw, extraction fails with that
    error, whatever the chapters before and after it hold, where a spine
    item with no file would only be skipped. *)
Theorem malformed_path_aborts `{Platform}
  (file : File) (zip : gmap (list Z) (list Z))
  (container opfPath opfContent : jsstring) (items : list Item)
  (before : list (option jsstring)) (bad : option jsstring)
  (after : list (option jsstring)) (href : jsstring) :
  loadAsync file = Some zip ->
  present (zip !! js "META-INF/container.xml") = Some container ->
  present (rootfile_full_path container) = Some opfPath ->
  present (zip !! opfPath) = Some opfContent ->
  parse_opf opfContent = mkOpf (Some items) (Some (before ++ bad :: after)) ->
  hrefs_decode (opfDir_of opfPath) items before ->
  href_of items bad = Some href ->
  decodeURIComponent (opfDir_of opfPath ++ href) = None ->
  extractTextFromEpub file
  = (Err (EpubFailed MalformedURI), [ConsoleError MalformedURI]).
Proof.
  intros Hz Hc Hp Ho Hd Hu Hh Hn.
  unfold extractTextFromEpub, extract_body.
  rewrite Hz, Hc, Hp, Ho, Hd. simpl.
  rewrite spine_loop_app, (spine_loop_text _ _ _ _ _ Hu).
  cbn [spine_loop]. unfold spine_step.
  unfold href_of in Hh.
  destruct (present bad) as [id|]; [|discriminate]. simpl in Hh.
  rewrite Hh, Hn. reflexivity.
Qed.

Lemma malformed_path_aborts_witness :
  @extractTextFromEpub DemoMore.strict_platform Demo.demo_file
  = (Err (EpubFailed MalformedURI), [ConsoleError MalformedURI]).
Proof.
  apply (@malformed_path_aborts DemoMore.strict_platform Demo.demo_file
           Demo.demo_zip (js "<container/>") (js "c.opf") (js "<package/>")
           _ [Some (js "a")] (Some (js "z")) [Some (js "b")]
           (js "%zz.html") eq_refl eq_refl eq_refl eq_refl eq_refl).
  - intros idref href Hin Hh.
    apply list_elem_of_singleton in Hin. subst idref.
    injection Hh as <-. eexists. reflexivity.
  - reflexivity.
  - reflexivity.
Defined.

End EpubMore.

(** ** More properties of the MOBI extractor *)

Module MobiMore.
Import Mobi MobiSpec.

Lemma emit_match (run m : jsstring) :
  m ∈ emit run -> m = run /\ (10 <= length run)%nat.
Proof.
  unfold emit. destruct (Nat.leb_spec 10 (length run)); intros Hm.
  - apply list_elem_of_singleton in Hm. now split.
  - now apply not_elem_of_nil in Hm.
Qed.

Lemma matches_from_spec (s pre run : jsstring) (m : jsstring) :
  forallb is_readable run = true ->
  stops_at_end pre ->
  m ∈ matches_from run s ->
  (10 <= length m)%nat /\ forallb is_readable m = true /\
  exists a b, pre ++ run ++ s = a ++ m ++ b
              /\ stops_at_end a /\ stops_at_start b.
Proof.
  revert pre run. induction s as [|c r IH]; intros pre run Hrun Hpre Hm.
  - simpl in Hm. apply emit_match in Hm as [-> Hl].
    repeat split; auto. exists pre, []. rewrite app_nil_r. repeat split; auto.
  - simpl in Hm. destruct (is_readable c) eqn:Ec.
    + assert (Hrc : forallb is_readable (run ++ [c]) = true).
      { rewrite forallb_app, Hrun. simpl. now rewrite Ec. }
      destruct (IH pre (run ++ [c]) Hrc Hpre Hm)
        as (Hl & Hr & a & b & E & Ha & Hb).
      repeat split; auto. exists a, b. rewrite <- E.
      now rewrite <- !app_assoc.
    + apply elem_of_app in Hm as [Hm|Hm].
      * apply emit_match in Hm as [-> Hl]. repeat split; auto.
        exists pre, (c :: r). repeat split; auto.
      * assert (Hp : stops_at_end (pre ++ run ++ [c])).
        { unfold stops_at_end. now rewrite !app_assoc, last_snoc. }
        destruct (IH (pre ++ run ++ [c]) [] eq_refl Hp Hm)
          as (Hl & Hr & a & b & E & Ha & Hb).
        repeat split; auto. exists a, b. rewrite <- E.
        now rewrite <- !app_assoc.
Qed.

(** X20: Every match of the readable pattern is a piece of the decoded text of
    at least ten characters, all readable, and a whole run: the text is
    not readable just before it and just after it. *)
Theorem matches_are_whole_readable_runs (rawText m : jsstring) :
  m ∈ matches rawText ->
  (10 <= length m)%nat /\ forallb is_readable m = true /\
  exists a b, rawText = a ++ m ++ b
              /\ stops_at_end a /\ stops_at_start b.
Proof.
  intros Hm. apply (matches_from_spec rawText [] []) in Hm; auto.
  exact I.
Qed.

Lemma matches_are_whole_readable_runs_witness :
  (10 <= length (js "Hello World"))%nat
  /\ forallb is_readable (js "Hello World") = true
  /\ exists a b, js "Hello World" ++ [0] ++ js "short"
                 = a ++ js "Hello World" ++ b
                 /\ stops_at_end a /\ stops_at_start b.
Proof.
  apply (matches_are_whole_readable_runs
           (js "Hello World" ++ [0] ++ js "short") (js "Hello World")).
  vm_compute. apply list_elem_of_here.
Defined.

Lemma strip_tags_from_free (s : jsstring) :
  tag_free (strip_tags_from false s) /\ tag_free (strip_tags_from true s).
Proof.
  induction s as [|c r [IHf IHt]].
  - split; intros a b E; destruct a; discriminate.
  - split.
    + cbn [strip_tags_from].
      destruct (Z.eqb_spec c LT) as [->|Hc].
      * destruct (existsb (Z.eqb GT) r) eqn:Eg; [exact IHt|].
        intros a b E Hin.
        assert (Hr : GT ∈ r).
        { destruct a as [|x a]; simpl in E.
          - assert (r = b) by congruence. now subst.
          - assert (r = a ++ LT :: b) as -> by congruence.
            rewrite elem_of_app, elem_of_cons. auto. }
        apply list_elem_of_In in Hr.
        assert (Hx : existsb (Z.eqb GT) r = true).
        { apply existsb_exists. exists GT. split; [exact Hr|].
          apply Z.eqb_refl. }
        congruence.
      * intros a b E. destruct a as [|x a]; simpl in E.
        -- congruence.
        -- apply (IHf a b). congruence.
    + cbn [strip_tags_from]. destruct (c =? GT); assumption.
Qed.

Lemma tag_free_fixed (s : jsstring) :
  tag_free s -> strip_tags_from false s = s.
Proof.
  induction s as [|c r IH]; intros Hf; [reflexivity|].
  cbn [strip_tags_from]. destruct (Z.eqb_spec c LT) as [->|Hc].
  - destruct (existsb (Z.eqb GT) r) eqn:Eg; [|reflexivity].
    exfalso. apply existsb_exists in Eg as (x & Hx & Ex).
    apply Z.eqb_eq in Ex. subst x.
    apply (Hf [] r eq_refl). now apply list_elem_of_In.
  - f_equal. apply IH. intros a b E. apply (Hf (c :: a) b).
    simpl. now rewrite E.
Qed.

(** X21: Stripping the tags leaves no tag: in the result no [<] has a [>]
    after it; and stripping again changes nothing. *)
Theorem strip_tags_leaves_no_tag (s : jsstring) :
  tag_free (strip_tags s)
  /\ strip_tags (strip_tags s) = strip_tags s.
Proof.
  pose proof (proj1 (strip_tags_from_free s)) as Hf.
  split; [exact Hf|]. now apply tag_free_fixed.
Qed.

End MobiMore.

(** ** Properties of the application state *)

Module AppFacts.
Import Library App AppSpec.

Lemma consistent_step (s s' : state) :
  consistent s -> step s s' -> consistent s'.
Proof.
  unfold consistent. intros Hc Hs.
  destruct Hs as [s|s book|s bookId|s book Hin|s book Hin|s bookId p|s];
    simpl.
  - exact Hc.
  - destruct (activeBook s) as [b|]; [|exact Hc].
    destruct Hc as [Hv Hb]. split; [exact Hv|].
    apply elem_of_app. now left.
  - unfold handleDeleteBook, active_is.
    destruct (activeBook s) as [b|]; simpl; [|exact Hc].
    destruct Hc as [Hv Hb].
    destruct (bool_decide_reflect (id b = bookId)) as [Ei|Ei]; simpl;
      [reflexivity|].
    split; [exact Hv|].
    apply list_elem_of_In, filter_In. split; [now apply list_elem_of_In|].
    now rewrite bool_decide_eq_false_2.
  - split; [discriminate|assumption].
  - split; [discriminate|assumption].
  - unfold handleUpdateProgress, active_is.
    destruct (activeBook s) as [b|]; simpl; [|exact Hc].
    destruct Hc as [Hv Hb].
    set (upd := fun b0 : Book => if bool_decide (id b0 = bookId)
                                 then with_progress b0 p else b0).
    assert (Hin : upd b ∈ List.map upd (books s)).
    { apply list_elem_of_In, in_map. now apply list_elem_of_In. }
    unfold upd in Hin at 1.
    destruct (bool_decide (id b = bookId)); simpl;
      (split; [exact Hv|exact Hin]).
  - reflexivity.
Qed.

(** X22: Whatever the handlers are called with, in the order they are called,
    the reader and the converter always have a book to show, and it is a
    book of the library as it is then, progress included; the screen is
    never blank. *)
Theorem view_shows_a_library_book (s : state) :
  reachable s ->
  match render s with
  | LibraryScreen shown => shown = books s
  | ReaderScreen b | ConverterScreen b => b ∈ books s
  | Blank => False
  end.
Proof.
  intros Hr.
  assert (Hc : consistent s).
  { induction Hr as [|s s' _ IH Hs]; [reflexivity|].
    now apply (consistent_step s). }
  unfold consistent, render in *.
  destruct (activeBook s) as [b|], (view s); try tauto;
    try reflexivity; discriminate.
Qed.

Lemma view_shows_a_library_book_witness :
  let s := handleUpdateProgress (js "a") 50
             (handleOpenBook DemoMore.book_a
                (handleAddBook DemoMore.book_a init)) in
  match render s with
  | LibraryScreen shown => shown = books s
  | ReaderScreen b | ConverterScreen b => b ∈ books s
  | Blank => False
  end.
Proof.
  apply view_shows_a_library_book.
  eapply reachable_step; [eapply reachable_step; [eapply reachable_step|]|].
  - apply reachable_init.
  - apply (step_add init DemoMore.book_a).
  - apply step_open. apply list_elem_of_here.
  - apply step_progress.
Defined.

Lemma filter_sublist {A : Type} (f : A -> bool) (l : list A) :
  List.filter f l `sublist_of` l.
Proof.
  induction l as [|x l IH]; [constructor|]. simpl.
  destruct (f x); [now apply sublist_skip|now apply sublist_cons].
Qed.

(** X23: Deleting by id removes every book of that id and no other: the books
    left are the others, in their order, and the active book afterwards is
    never a deleted one. *)
Theorem delete_removes_the_book (bookId : jsstring) (s : state) :
  let s' := handleDeleteBook bookId s in
  Forall (fun b => id b <> bookId) (books s')
  /\ books s' `sublist_of` books s
  /\ Forall (fun b => id b = bookId \/ b ∈ books s') (books s)
  /\ match activeBook s' with
     | Some b => id b <> bookId
     | None => True
     end.
Proof.
  intros s'.
  assert (Eb : books s'
               = List.filter (fun b => negb (bool_decide (id b = bookId)))
                   (books s)).
  { unfold s', handleDeleteBook. now destruct (active_is s bookId). }
  rewrite Eb. split; [|split; [|split]].
  - apply Forall_forall. intros b Hb.
    apply list_elem_of_In, filter_In in Hb as [_ Hb].
    apply negb_true_iff, bool_decide_eq_false in Hb. exact Hb.
  - apply filter_sublist.
  - apply Forall_forall. intros b Hb.
    destruct (decide (id b = bookId)) as [Hi|Hi]; [now left|right].
    apply list_elem_of_In, filter_In.
    split; [now apply list_elem_of_In|].
    now rewrite bool_decide_eq_false_2.
  - unfold s', handleDeleteBook, active_is.
    destruct (activeBook s) as [a|]; simpl; [|exact I].
    destruct (bool_decide_reflect (id a = bookId)); simpl; [exact I|].
    assumption.
Qed.

(** X24: Adding a book whose id is new and deleting it again gives back the
    list of books. *)
Theorem add_then_delete (book : Book) (s : state) :
  Forall (fun b => id b <> id book) (books s) ->
  books (handleDeleteBook (id book) (handleAddBook book s)) = books s.
Proof.
  intros Hf.
  assert (Eb : books (handleDeleteBook (id book) (handleAddBook book s))
               = List.filter (fun b => negb (bool_decide (id b = id book)))
                   (books s ++ [book])).
  { unfold handleDeleteBook.
    now destruct (active_is (handleAddBook book s) (id book)). }
  rewrite Eb, List.filter_app. simpl.
  rewrite bool_decide_eq_true_2 by reflexivity. simpl.
  rewrite app_nil_r. clear Eb. revert Hf. generalize (books s) as l.
  intros l Hf. induction Hf as [|b l Hb _ IH]; [reflexivity|]. simpl.
  rewrite bool_decide_eq_false_2 by exact Hb. simpl. now rewrite IH.
Qed.

Lemma add_then_delete_witness :
  books (handleDeleteBook (js "b")
           (handleAddBook DemoMore.book_b
              (handleAddBook DemoMore.book_a init)))
  = [DemoMore.book_a].
Proof.
  apply (add_then_delete DemoMore.book_b
           (handleAddBook DemoMore.book_a init)).
  repeat constructor. discriminate.
Defined.

(** X25: Recording the progress of a book changes the progress of the books of
    that id and nothing else: the ids and the contents of the list stay
    as they are, in their order, every book of another id is as it was,
    and the view does not change. *)
Theorem progress_update_touches_progress_only (bookId : jsstring)
  (p : Z) (s : state) :
  let s' := handleUpdateProgress bookId p s in
  id <$> books s' = id <$> books s
  /\ content <$> books s' = content <$> books s
  /\ Forall2 (fun b b' => if bool_decide (id b = bookId)
                          then progress b' = p else b' = b)
       (books s) (books s')
  /\ view s' = view s.
Proof.
  intros s'.
  set (upd := fun b : Book => if bool_decide (id b = bookId)
                              then with_progress b p else b).
  assert (Eb : books s' = upd <$> books s).
  { assert (Em : forall l, List.map upd l = upd <$> l).
    { induction l as [|x l IH]; simpl; [reflexivity|]. now rewrite IH. }
    unfold s', handleUpdateProgress.
    destruct (active_is s bookId); simpl; apply Em. }
  assert (Hid : forall b, id (upd b) = id b /\ content (upd b) = content b).
  { intros b. unfold upd. now destruct (bool_decide _). }
  rewrite Eb. split; [|split; [|split]].
  - rewrite <- list_fmap_compose. apply list_fmap_ext.
    intros i b _. apply Hid.
  - rewrite <- list_fmap_compose. apply list_fmap_ext.
    intros i b _. apply Hid.
  - apply Forall2_fmap_r, Forall_Forall2_diag, Forall_forall.
    intros b _. cbv beta. unfold upd.
    case_bool_decide; unfold compose; case_bool_decide;
      try reflexivity; contradiction.
  - unfold s', handleUpdateProgress. now destruct (active_is s bookId).
Qed.

End AppFacts.

(** ** Properties of the converter view *)

Module ConverterFacts.
Import Library Gemini Converter.

Section Run.
Context `{GenAI}.
Variable book : Book.

Lemma act_settled (s : state) (a : action) :
  (taskStatus s <> processing /\
   (result_text s <> None -> taskStatus s = completed)) ->
  taskStatus (act book s a) <> processing /\
  (result_text (act book s a) <> None ->
   taskStatus (act book s a) = completed).
Proof.
  intros [H1 H2]. destruct a; simpl; auto.
  unfold handleProcess, finish, start. simpl.
  destruct (processBookContent _ _ _); simpl; split; auto; congruence.
Qed.

End Run.

(** X26: After any sequence of actions in the converter, no run is left in
    progress, a result is there only if the last run completed (a failed
    run leaves no result of an earlier run), and a file is offered for
    download only then, holding that result, which is not empty. *)
Theorem result_only_when_completed `{GenAI} (book : Book)
  (l : list action) :
  let s := acts book init l in
  taskStatus s <> processing
  /\ (result_text s = None \/ taskStatus s = completed)
  /\ match downloadResult book s with
     | Some d => taskStatus s = completed
                 /\ result_text s = Some (download_content d)
                 /\ download_content d <> []
     | None => True
     end.
Proof.
  intros s.
  assert (Hs : taskStatus s <> processing /\
               (result_text s <> None -> taskStatus s = completed)).
  { unfold s, acts.
    assert (H0 : taskStatus init <> processing /\
                 (result_text init <> None -> taskStatus init = completed)).
    { split; [discriminate|]. intros Hn. now contradiction Hn. }
    revert H0. generalize init. induction l as [|a l IH]; intros s0 H0;
      [exact H0|].
    simpl. apply IH. now apply act_settled. }
  destruct Hs as [H1 H2]. split; [exact H1|]. split.
  - destruct (result_text s); [right; apply H2; discriminate|now left].
  - unfold downloadResult.
    destruct (result_text s) as [[|c r]|] eqn:Er; try exact I.
    simpl. split; [|split].
    + apply H2. discriminate.
    + reflexivity.
    + discriminate.
Qed.

End ConverterFacts.
